(** * req_uninstaller: the pip bulk uninstaller

    A shallow embedding of [src/Info/req_uninstaller.py]: the listing
    parser and protected-name filter, the background run of
    [UninstallThread.run] as a trace of emitted signals and spawned
    commands, the handlers of [PackageUninstallerGUI] and the start-up
    check for PyQt6.

    Text is modelled by [string], the bytes of its UTF-8 encoding.  The
    character classes of [str.strip] and [str.lower] are modelled on the
    ASCII range; bytes above 127 are left alone by both. *)

From Stdlib Require Import Strings.String Strings.Ascii.
From Stdlib Require Import Numbers.DecimalString.
From Stdlib Require Import List Bool Arith ZArith Lia.
Import ListNotations.

Open Scope string_scope.
Open Scope list_scope.

(** ** Python string operations *)

Module Str.

(** The line feed, Python's ['\n']. *)
Definition nl : string := String (ascii_of_nat 10) EmptyString.

(** [str.isspace] on one ASCII character: tab, line feed, vertical tab,
    form feed, carriage return, the four separators 0x1c-0x1f and the
    space. *)
Definition isspace (c : ascii) : bool :=
  let n := nat_of_ascii c in
  ((9 <=? n)%nat && (n <=? 13)%nat) || ((28 <=? n)%nat && (n <=? 32)%nat).

Fixpoint lstrip (s : string) : string :=
  match s with
  | EmptyString => EmptyString
  | String c rest => if isspace c then lstrip rest else s
  end.

Fixpoint rstrip (s : string) : string :=
  match s with
  | EmptyString => EmptyString
  | String c rest =>
      match rstrip rest with
      | EmptyString => if isspace c then EmptyString else String c EmptyString
      | r => String c r
      end
  end.

(** [s.strip()] *)
Definition strip (s : string) : string := rstrip (lstrip s).

Definition lower_char (c : ascii) : ascii :=
  let n := nat_of_ascii c in
  if (65 <=? n)%nat && (n <=? 90)%nat then ascii_of_nat (n + 32) else c.

(** [s.lower()] *)
Fixpoint lower (s : string) : string :=
  match s with
  | EmptyString => EmptyString
  | String c rest => String (lower_char c) (lower rest)
  end.

(** [sub in s] *)
Fixpoint contains (sub s : string) : bool :=
  match s with
  | EmptyString => prefix sub EmptyString
  | String _ rest => prefix sub s || contains sub rest
  end.

(** [s.split(sep)] for a non-empty [sep] (Python raises [ValueError] on
    an empty one; both separators of this program are literals).
    The scan goes left to right: [cur] is the piece being collected and
    [skip] counts the characters of a matched separator still to drop. *)
Fixpoint split_from (sep : string) (skip : nat) (cur s : string)
  : list string :=
  match s with
  | EmptyString => [cur]
  | String c rest =>
      match skip with
      | S k => split_from sep k cur rest
      | O =>
          if prefix sep s
          then cur :: split_from sep (String.length sep - 1) EmptyString rest
          else split_from sep 0 (cur ++ String c EmptyString) rest
      end
  end.

Definition split (sep s : string) : list string :=
  split_from sep 0 EmptyString s.

(** [sep.join(items)] *)
Definition join (sep : string) (items : list string) : string :=
  String.concat sep items.

(** [s * n] *)
Fixpoint repeat (s : string) (n : nat) : string :=
  match n with
  | O => EmptyString
  | S k => s ++ repeat s k
  end.

(** [str(n)] for a non-negative [int], as the f-strings render it. *)
Definition of_nat (n : nat) : string :=
  NilZero.string_of_uint (Nat.to_uint n).

(** [x in items] for a list of strings. *)
Fixpoint mem (x : string) (items : list string) : bool :=
  match items with
  | [] => false
  | y :: rest => (x =? y) || mem x rest
  end.

(** [bool(s)]: a string is truthy when it is not empty. *)
Definition truthy (s : string) : bool :=
  match s with
  | EmptyString => false
  | String _ _ => true
  end.

End Str.

(** ** Package Lister: parsing and filtering (run, lines 109-116) *)

(** The protected names of line 115. *)
Definition protected : list string := ["pip"; "setuptools"; "wheel"].

(** [line.split('==')[0]]; [split] never returns an empty list, so the
    index is always in range. *)
Definition pkg_name_of (line : string) : string :=
  hd EmptyString (Str.split "==" line).

(** The [for line in ...] loop of lines 111-116, with [packages] the list
    being appended to. *)
Fixpoint parse_lines (lines packages : list string) : list string :=
  match lines with
  | [] => packages
  | line :: rest =>
      if Str.truthy line && Str.contains "==" line then
        let pkg_name := pkg_name_of line in
        if negb (Str.mem (Str.lower pkg_name) protected)
        then parse_lines rest (packages ++ [pkg_name])
        else parse_lines rest packages
      else parse_lines rest packages
  end.

(** [result.stdout.strip().split('\n')] *)
Definition output_lines (stdout : string) : list string :=
  Str.split Str.nl (Str.strip stdout).

Definition parse_packages (stdout : string) : list string :=
  parse_lines (output_lines stdout) [].

Definition sample_listing : string :=
  "foo==1.0" ++ Str.nl ++ "bar==2.1" ++ Str.nl ++ "pip==23.0" ++ Str.nl.

(** ** Signals, commands and the process environment *)

(** The two command lines the thread spawns ([sys.executable -m pip ...]):
    [PipListFreeze] is [pip list --format=freeze] (line 100) and
    [PipUninstall pkg] is [pip uninstall -y pkg] (line 137). *)
Inductive command : Type :=
| PipListFreeze
| PipUninstall (pkg_name : string).

(** What the thread does that the outside can observe: the three signals
    of lines 89-91 and the child processes it launches. *)
Inductive event : Type :=
| Output (text : string)                        (* output_signal *)
| Progress (current total : nat)                (* progress_signal *)
| Finished (success : bool) (message : string)  (* finished_signal *)
| Spawn (cmd : command).                        (* subprocess.run *)

(** [subprocess.CompletedProcess] with captured text output. *)
Record CompletedProcess : Type := mkCompleted {
  returncode : Z;
  stdout : string;
  stderr : string
}.

(** [subprocess.run] either returns a [CompletedProcess] or raises an
    [Exception] [e]; [Raised] carries [str(e)]. *)
Inductive outcome : Type :=
| Returned (result : CompletedProcess)
| Raised (message : string).

(** The environment of one run: what the listing command does, and what
    the [i]-th uninstall command (counted from 1, as the loop does) does
    for the package it is given. *)
Record World : Type := mkWorld {
  pip_list : outcome;
  pip_uninstall : nat -> string -> outcome
}.

(** ** The run monad: emitted events, and a value or a raised exception *)

Inductive result (A : Type) : Type :=
| Ok (value : A)
| Exc (message : string).
Arguments Ok {A} value.
Arguments Exc {A} message.

Definition M (A : Type) : Type := (list event * result A)%type.

Definition ret {A : Type} (a : A) : M A := ([], Ok a).

Definition bind {A B : Type} (m : M A) (f : A -> M B) : M B :=
  match m with
  | (t, Ok a) => let (t', r) := f a in (t ++ t', r)
  | (t, Exc e) => (t, Exc e)
  end.

Notation "x <- c1 ;; c2" := (bind c1 (fun x => c2))
  (at level 61, c1 at next level, right associativity).
Notation "c1 ;; c2" := (bind c1 (fun _ => c2))
  (at level 61, right associativity).

Definition emit (e : event) : M unit := ([e], Ok tt).

(** [subprocess.run(cmd, capture_output=True, text=True)]; the launch is
    recorded whether it returns or raises. *)
Definition subprocess_run (cmd : command) (o : outcome) : M CompletedProcess :=
  match o with
  | Returned r => ([Spawn cmd], Ok r)
  | Raised e => ([Spawn cmd], Exc e)
  end.

(** [try: body except Exception as e: handler(str(e))] *)
Definition try_except {A : Type} (body : M A) (handler : string -> M A) : M A :=
  match body with
  | (t, Ok a) => (t, Ok a)
  | (t, Exc e) => let (t', r) := handler e in (t ++ t', r)
  end.

Definition trace {A : Type} (m : M A) : list event := fst m.
Definition value {A : Type} (m : M A) : result A := snd m.

(** ** UninstallThread.run *)

Definition starting_line (i total : nat) (pkg_name : string) : string :=
  "[" ++ Str.of_nat i ++ "/" ++ Str.of_nat total ++ "] Uninstalling "
      ++ pkg_name ++ "...".

(** Lines 142-148: what follows one uninstall command.  Returns the
    updated [failed_packages]. *)
Definition report_result (pkg_name : string) (r : CompletedProcess)
    (failed_packages : list string) : M (list string) :=
  if (returncode r =? 0)%Z then
    emit (Output (" ✓ Success" ++ Str.nl)) ;;
    ret failed_packages
  else
    emit (Output (" ✗ Failed" ++ Str.nl)) ;;
    let failed_packages := failed_packages ++ [pkg_name] in
    (if Str.truthy (stderr r)
     then emit (Output ("   Error: " ++ stderr r ++ Str.nl))
     else ret tt) ;;
    ret failed_packages.

(** Lines 132-148: [for i, pkg_name in enumerate(packages, 1)]. *)
Fixpoint uninstall_loop (w : World) (total_packages i : nat)
    (packages failed_packages : list string) : M (list string) :=
  match packages with
  | [] => ret failed_packages
  | pkg_name :: rest =>
      emit (Progress i total_packages) ;;
      emit (Output (starting_line i total_packages pkg_name)) ;;
      uninstall_result <-
        subprocess_run (PipUninstall pkg_name) (pip_uninstall w i pkg_name) ;;
      failed_packages <- report_result pkg_name uninstall_result failed_packages ;;
      uninstall_loop w total_packages (S i) rest failed_packages
  end.

(** Lines 156-157: [for pkg in failed_packages]. *)
Fixpoint report_failed (failed_packages : list string) : M unit :=
  match failed_packages with
  | [] => ret tt
  | pkg :: rest =>
      emit (Output ("  - " ++ pkg ++ Str.nl)) ;;
      report_failed rest
  end.

Definition rule : string := Str.repeat "-" 60.

(** Lines 95-158: the body of the [try]. *)
Definition run_body (w : World) : M unit :=
  emit (Output ("Fetching list of installed packages..." ++ Str.nl)) ;;
  emit (Progress 0 0) ;;
  result <- subprocess_run PipListFreeze (pip_list w) ;;
  if negb (returncode result =? 0)%Z then
    emit (Finished false "Failed to get package list")
  else
    let packages := parse_packages (stdout result) in
    match packages with
    | [] => emit (Finished true "No packages to uninstall")
    | _ :: _ =>
        let total_packages := List.length packages in
        emit (Output ("Found " ++ Str.of_nat total_packages
                        ++ " packages to uninstall" ++ Str.nl)) ;;
        emit (Output ("Packages: " ++ Str.join ", " packages
                        ++ Str.nl ++ Str.nl)) ;;
        emit (Output ("Uninstalling packages..." ++ Str.nl)) ;;
        emit (Output (rule ++ Str.nl)) ;;
        failed_packages <- uninstall_loop w total_packages 1 packages [] ;;
        emit (Output (Str.nl ++ rule ++ Str.nl)) ;;
        match failed_packages with
        | [] =>
            emit (Finished true ("Successfully uninstalled "
                                   ++ Str.of_nat total_packages ++ " packages!"))
        | _ :: _ =>
            emit (Output (Str.nl ++ "⚠ Failed to uninstall "
                            ++ Str.of_nat (List.length failed_packages)
                            ++ " packages:" ++ Str.nl)) ;;
            report_failed failed_packages ;;
            emit (Finished false ("Failed to uninstall "
                                    ++ Str.of_nat (List.length failed_packages)
                                    ++ " packages"))
        end
    end.

(** Lines 93-161. *)
Definition run (w : World) : M unit :=
  try_except (run_body w)
    (fun e => emit (Finished false ("Error: " ++ e))).

(** ** Sample environments *)

Definition exit_with (code : Z) (out err : string) : outcome :=
  Returned (mkCompleted code out err).

(** Every uninstall succeeds. *)
Definition world_ok : World :=
  mkWorld (exit_with 0 sample_listing "") (fun _ _ => exit_with 0 "" "").

(** The uninstall of [bar] exits with status 1 and a message on standard
    error; the others succeed. *)
Definition world_bar_fails : World :=
  mkWorld (exit_with 0 sample_listing "")
    (fun _ pkg =>
       if (pkg =? "bar")%string
       then exit_with 1 "" "ERROR: cannot uninstall bar"
       else exit_with 0 "" "").

(** The listing command exits with status 1. *)
Definition world_list_fails : World :=
  mkWorld (exit_with 1 "" "pip: broken") (fun _ _ => exit_with 0 "" "").

(** Only protected packages are installed. *)
Definition world_nothing : World :=
  mkWorld (exit_with 0 ("pip==23.0" ++ Str.nl ++ "Wheel==0.40" ++ Str.nl) "")
    (fun _ _ => exit_with 0 "" "").

(** Launching the second uninstall raises. *)
Definition world_raises : World :=
  mkWorld (exit_with 0 sample_listing "")
    (fun i _ => if (i =? 2)%nat then Raised "[Errno 12] Cannot allocate memory"
                else exit_with 0 "" "").

(** ** PackageUninstallerGUI: the confirmation step *)

(** The widget state the handlers read and write. *)
Record Gui : Type := mkGui {
  output_text : list string;          (* blocks appended to the log *)
  uninstall_button_enabled : bool;
  info_button_enabled : bool;
  clear_button_enabled : bool;
  progress_visible : bool;
  progress_maximum : nat;
  progress_value : nat;
  uninstall_thread : bool             (* [self.uninstall_thread is not None] *)
}.

(** The answer of [QMessageBox.question] with the buttons [Yes | No]
    (closing the dialog answers [No], its default). *)
Inductive StandardButton : Type := Yes | No.

(** Lines 276-292.  The second component is the activity of the thread
    the call starts. *)
Definition start_uninstall (w : World) (g : Gui) : Gui * list event :=
  ({| output_text := [];
      uninstall_button_enabled := false;
      info_button_enabled := false;
      clear_button_enabled := false;
      progress_visible := true;
      progress_maximum := 0;
      progress_value := 0;
      uninstall_thread := true |},
   trace (run w)).

(** Lines 258-274: [reply] is what the user answers. *)
Definition confirm_uninstall (w : World) (reply : StandardButton) (g : Gui)
    : Gui * list event :=
  match reply with
  | Yes => start_uninstall w g
  | No => (g, [])
  end.

(** The window as [init_ui] leaves it. *)
Definition initial_gui : Gui :=
  {| output_text := [];
     uninstall_button_enabled := true;
     info_button_enabled := true;
     clear_button_enabled := true;
     progress_visible := false;
     progress_maximum := 0;
     progress_value := 0;
     uninstall_thread := false |}.

(** Idle: every control enabled and no progress bar shown. *)
Definition idle (g : Gui) : bool :=
  uninstall_button_enabled g && info_button_enabled g
  && clear_button_enabled g && negb (progress_visible g).

(** ** Vocabulary of the statements *)

Definition is_finished (e : event) : bool :=
  match e with
  | Finished _ _ => true
  | _ => false
  end.

Definition is_uninstall (e : event) : bool :=
  match e with
  | Spawn (PipUninstall _) => true
  | _ => false
  end.

(** The commands a trace launches, in order. *)
Fixpoint spawned (t : list event) : list command :=
  match t with
  | [] => []
  | Spawn cmd :: rest => cmd :: spawned rest
  | _ :: rest => spawned rest
  end.

(** Case-insensitive equality, as line 115 decides it. *)
Definition ci_equal (a b : string) : Prop := Str.lower a = Str.lower b.

(** [sep] occurs in [s] at the offset [String.length pre]. *)
Definition occurs (sep s pre : string) : Prop :=
  exists post, s = (pre ++ sep ++ post)%string.

(** A line the parser keeps. *)
Definition keeps (line : string) : bool :=
  Str.truthy line && Str.contains "==" line
  && negb (Str.mem (Str.lower (pkg_name_of line)) protected).

(** [enumerate(packages, start)] *)
Definition enumerate (start : nat) (packages : list string)
    : list (nat * string) :=
  combine (seq start (List.length packages)) packages.

Definition exit_nonzero (o : outcome) : bool :=
  match o with
  | Returned r => negb (returncode r =? 0)%Z
  | Raised _ => false
  end.

(** No uninstall command of the loop raises: each returns an exit
    status. *)
Fixpoint all_return (w : World) (i : nat) (packages : list string) : bool :=
  match packages with
  | [] => true
  | pkg_name :: rest =>
      match pip_uninstall w i pkg_name with
      | Returned _ => all_return w (S i) rest
      | Raised _ => false
      end
  end.

(** The identifiers whose uninstall command exits non-zero, the [i]-th
    command being the one for the [i]-th identifier. *)
Definition failures (w : World) (start : nat) (packages : list string)
    : list string :=
  map snd
    (filter (fun ip => exit_nonzero (pip_uninstall w (fst ip) (snd ip)))
       (enumerate start packages)).

(** The lines a returned uninstall command is followed by. *)
Definition result_lines (r : CompletedProcess) : list event :=
  if (returncode r =? 0)%Z then [Output (" ✓ Success" ++ Str.nl)]
  else Output (" ✗ Failed" ++ Str.nl)
       :: (if Str.truthy (stderr r)
           then [Output ("   Error: " ++ stderr r ++ Str.nl)]
           else []).

Definition failed_line (pkg : string) : event :=
  Output ("  - " ++ pkg ++ Str.nl).

Definition fetching_line : event :=
  Output ("Fetching list of installed packages..." ++ Str.nl).

(** An event that is no uninstall of a protected name. *)
Definition spares_protected (e : event) : Prop :=
  match e with
  | Spawn (PipUninstall pkg_name) =>
      forall p, In p protected -> ~ ci_equal pkg_name p
  | _ => True
  end.

(** An event other than [Finished]. *)
Definition quiet (e : event) : Prop := is_finished e = false.

(** A trace whose last event is its only [Finished]. *)
Definition ends_finished (t : list event) : Prop :=
  exists pre success message,
    t = pre ++ [Finished success message] /\ Forall quiet pre.

(** A computation of the [try] body is terminal when it either returns
    having emitted [Finished] once, as its last event, or raises having
    emitted none. *)
Definition terminal {A : Type} (m : M A) : Prop :=
  match value m with
  | Ok _ => ends_finished (trace m)
  | Exc _ => Forall quiet (trace m)
  end.

(** ** The other handlers of PackageUninstallerGUI *)

(** The modal boxes of [uninstall_finished]: [QMessageBox.information]
    and [QMessageBox.warning]. *)
Inductive dialog : Type :=
| Information (title message : string)
| Warning (title message : string).

(** Lines 294-299: [output_text.append(text)]; moving the scroll bar
    changes none of the fields of [Gui]. *)
Definition update_output (text : string) (g : Gui) : Gui :=
  {| output_text := output_text g ++ [text];
     uninstall_button_enabled := uninstall_button_enabled g;
     info_button_enabled := info_button_enabled g;
     clear_button_enabled := clear_button_enabled g;
     progress_visible := progress_visible g;
     progress_maximum := progress_maximum g;
     progress_value := progress_value g;
     uninstall_thread := uninstall_thread g |}.

(** Lines 301-308.  The two progress fields hold what [setMaximum] and
    [setValue] were last given. *)
Definition update_progress (current total : nat) (g : Gui) : Gui :=
  if (total =? 0)%nat then
    {| output_text := output_text g;
       uninstall_button_enabled := uninstall_button_enabled g;
       info_button_enabled := info_button_enabled g;
       clear_button_enabled := clear_button_enabled g;
       progress_visible := progress_visible g;
       progress_maximum := 0;
       progress_value := progress_value g;
       uninstall_thread := uninstall_thread g |}
  else
    {| output_text := output_text g;
       uninstall_button_enabled := uninstall_button_enabled g;
       info_button_enabled := info_button_enabled g;
       clear_button_enabled := clear_button_enabled g;
       progress_visible := progress_visible g;
       progress_maximum := total;
       progress_value := current;
       uninstall_thread := uninstall_thread g |}.

(** Lines 310-322. *)
Definition uninstall_finished (success : bool) (message : string) (g : Gui)
    : Gui * dialog :=
  ({| output_text := output_text g;
      uninstall_button_enabled := true;
      info_button_enabled := true;
      clear_button_enabled := true;
      progress_visible := false;
      progress_maximum := progress_maximum g;
      progress_value := progress_value g;
      uninstall_thread := uninstall_thread g |},
   if success then Information "Complete" message
   else Warning "Error" message).

(** Lines 243-256: [o] is what [pip list] does. *)
Definition show_packages (o : outcome) (g : Gui) : Gui :=
  let g := {| output_text := [];
              uninstall_button_enabled := uninstall_button_enabled g;
              info_button_enabled := info_button_enabled g;
              clear_button_enabled := clear_button_enabled g;
              progress_visible := progress_visible g;
              progress_maximum := progress_maximum g;
              progress_value := progress_value g;
              uninstall_thread := uninstall_thread g |} in
  let g := update_output ("Fetching installed packages..." ++ Str.nl) g in
  match o with
  | Returned result => update_output (stdout result) g
  | Raised e => update_output ("Error: " ++ e) g
  end.

(** The slots connected on lines 289-291: each signal reaches its
    handler; launching a process is no signal. *)
Definition deliver (e : event) (g : Gui) : Gui * list dialog :=
  match e with
  | Output text => (update_output text g, [])
  | Progress current total => (update_progress current total g, [])
  | Finished success message =>
      let (g', d) := uninstall_finished success message g in (g', [d])
  | Spawn _ => (g, [])
  end.

(** Signals are handled in the order they were emitted. *)
Fixpoint deliver_all (t : list event) (g : Gui) : Gui * list dialog :=
  match t with
  | [] => (g, [])
  | e :: rest =>
      let (g1, d1) := deliver e g in
      let (g2, d2) := deliver_all rest g1 in
      (g2, d1 ++ d2)
  end.

(** The window after the first [n] events of the run that an accepted
    confirmation starts have been handled. *)
Definition during (w : World) (g : Gui) (n : nat) : Gui * list dialog :=
  let (g0, t) := confirm_uninstall w Yes g in
  deliver_all (firstn n t) g0.

(** The window once the whole run has been handled. *)
Definition session (w : World) (g : Gui) : Gui * list dialog :=
  let (g0, t) := confirm_uninstall w Yes g in
  deliver_all t g0.

(** Running: every control disabled and the progress bar shown. *)
Definition busy (g : Gui) : bool :=
  negb (uninstall_button_enabled g) && negb (info_button_enabled g)
  && negb (clear_button_enabled g) && progress_visible g.

(** ** The start-up check for PyQt6 (lines 6-44) *)

(** What the [except ImportError] block does at the console. *)
Inductive console_event : Type :=
| Printed (text : string)     (* print(text) *)
| Asked (prompt : string)     (* input(prompt) *)
| InstallPyQt6.               (* subprocess.run: pip install PyQt6 *)

(** How the block ends: [sys.exit(code)], or an [EOFError] of [input]
    that nothing catches. *)
Inductive ending : Type :=
| SystemExit (code : Z)
| Uncaught (exception : string).

(** The status the interpreter exits with. *)
Definition exit_status (e : ending) : Z :=
  match e with
  | SystemExit code => code
  | Uncaught _ => 1%Z
  end.

(** The console of one start: each [input] returns a line or meets the
    end of the input ([None]); [install] is what the install command
    does. *)
Record Terminal : Type := mkTerminal {
  choice_line : option string;
  install : outcome;
  enter_line : option string
}.

Definition banner : string := Str.repeat "=" 60.

(** Lines 20-33. *)
Definition install_pyqt6 (o : outcome) : list console_event :=
  [Printed (Str.nl ++ "Installing PyQt6..."); InstallPyQt6] ++
  match o with
  | Returned result =>
      if (returncode result =? 0)%Z
      then [Printed "✓ PyQt6 installed successfully!";
            Printed "Please run this script again."]
      else [Printed "✗ Installation failed:"; Printed (stderr result)]
  | Raised install_error => [Printed ("✗ Installation error: " ++ install_error)]
  end.

(** Lines 35-40. *)
Definition manual_instructions : list console_event :=
  [Printed (Str.nl ++ "Please install it manually by running:");
   Printed "  pip install PyQt6";
   Printed (Str.nl ++ "Or:");
   Printed "  python -m pip install PyQt6";
   Printed (Str.nl ++ "Or:");
   Printed "  py -m pip install PyQt6"].

(** Lines 12-16: the banner and the question. *)
Definition question : list console_event :=
  [Printed banner; Printed "ERROR: PyQt6 is not installed!"; Printed banner;
   Printed (Str.nl ++ "Would you like to install PyQt6 automatically?");
   Asked "Install PyQt6? (y/n): "].

(** Lines 42-43. *)
Definition farewell : list console_event :=
  [Printed banner; Asked (Str.nl ++ "Press Enter to exit...")].

(** Lines 11-44, entered when the import of PyQt6 fails. *)
Definition missing_pyqt6 (c : Terminal) : list console_event * ending :=
  match choice_line c with
  | None => (question, Uncaught "EOFError")
  | Some line =>
      let choice := Str.lower (Str.strip line) in
      let answered :=
        question ++ (if (choice =? "y")%string then install_pyqt6 (install c)
                     else manual_instructions)
                 ++ farewell in
      match enter_line c with
      | None => (answered, Uncaught "EOFError")
      | Some _ => (answered, SystemExit 1)
      end
  end.

(** ** More vocabulary *)

(** [s] holds white space only. *)
Fixpoint all_space (s : string) : bool :=
  match s with
  | EmptyString => true
  | String c rest => Str.isspace c && all_space rest
  end.

(** The identifiers a run sets out to remove: those of the listing when
    the listing command returns with status 0. *)
Definition listed (w : World) : list string :=
  match pip_list w with
  | Returned r =>
      if (returncode r =? 0)%Z then parse_packages (stdout r) else []
  | Raised _ => []
  end.

(** The progress signals of a trace, in order. *)
Fixpoint progresses (t : list event) : list (nat * nat) :=
  match t with
  | [] => []
  | Progress current total :: rest => (current, total) :: progresses rest
  | _ :: rest => progresses rest
  end.

(** The texts of the output signals of a trace, in order. *)
Fixpoint outputs (t : list event) : list string :=
  match t with
  | [] => []
  | Output text :: rest => text :: outputs rest
  | _ :: rest => outputs rest
  end.

(** A progress signal of the loop: a position between 1 and the total. *)
Definition in_range (e : event) : Prop :=
  match e with
  | Progress current total => 1 <= current <= total
  | _ => True
  end.

(** What the run emits before the loop (lines 123-128) ... *)
Definition opening (packages : list string) : list event :=
  [fetching_line; Progress 0 0; Spawn PipListFreeze;
   Output ("Found " ++ Str.of_nat (List.length packages)
             ++ " packages to uninstall" ++ Str.nl);
   Output ("Packages: " ++ Str.join ", " packages ++ Str.nl ++ Str.nl);
   Output ("Uninstalling packages..." ++ Str.nl);
   Output (rule ++ Str.nl)].

(** ... and after it (lines 150-161), [v] being how the loop ended. *)
Definition closing (total_packages : nat) (v : result (list string))
    : list event :=
  match v with
  | Ok [] =>
      [Output (Str.nl ++ rule ++ Str.nl);
       Finished true ("Successfully uninstalled "
                        ++ Str.of_nat total_packages ++ " packages!")]
  | Ok failed =>
      [Output (Str.nl ++ rule ++ Str.nl);
       Output (Str.nl ++ "⚠ Failed to uninstall "
                 ++ Str.of_nat (List.length failed) ++ " packages:" ++ Str.nl)]
        ++ map failed_line failed
        ++ [Finished false ("Failed to uninstall "
                              ++ Str.of_nat (List.length failed) ++ " packages")]
  | Exc e => [Finished false ("Error: " ++ e)]
  end.

(** * Properties *)

(** ** Strings *)

Section StringFacts.

Local Open Scope string_scope.

Lemma append_nil_r (s : string) : s ++ "" = s.
Proof. induction s as [| c s IH]; simpl; [reflexivity | now rewrite IH]. Qed.

Lemma append_assoc (a b c : string) : (a ++ b) ++ c = a ++ b ++ c.
Proof. induction a as [| x a IH]; simpl; [reflexivity | now rewrite IH]. Qed.

Lemma prefix_iff (p s : string) :
  prefix p s = true <-> exists r, s = p ++ r.
Proof.
  revert s; induction p as [| c p IH]; intros s.
  - split; [intros _; exists s; reflexivity |].
    intros _; now destruct s.
  - destruct s as [| d s]; simpl.
    + split; [discriminate | intros [r Hr]; discriminate].
    + destruct (ascii_dec c d) as [-> | Hcd].
      * rewrite IH; split; intros [r Hr]; exists r; congruence.
      * split; [discriminate | intros [r Hr]; congruence].
Qed.

Lemma contains_iff (sub s : string) :
  Str.contains sub s = true <-> exists pre post, s = pre ++ sub ++ post.
Proof.
  induction s as [| c s IH]; cbn [Str.contains].
  - rewrite prefix_iff; split.
    + intros [r Hr]; exists "", r; exact Hr.
    + intros [pre [post H]]; destruct pre; [now exists post | discriminate].
  - rewrite orb_true_iff, IH, prefix_iff; split.
    + intros [[r Hr] | [pre [post H]]].
      * exists "", r; exact Hr.
      * exists (String c pre), post; simpl; now rewrite H.
    + intros [pre [post H]]; destruct pre as [| d pre]; simpl in H.
      * left; now exists post.
      * right; exists pre, post; congruence.
Qed.

Lemma split_from_nonempty (sep : string) (skip : nat) (cur s : string) :
  Str.split_from sep skip cur s <> [].
Proof.
  revert skip cur; induction s as [| c s IH]; intros skip cur;
    cbn [Str.split_from].
  - discriminate.
  - destruct skip; [destruct (prefix sep (String c s)) |]; try discriminate;
      apply IH.
Qed.

(** The first piece of a split ends where the separator first occurs. *)
Lemma split_from_first (sep : string) (s cur pre : string) :
  occurs sep s pre ->
  (forall pre', occurs sep s pre' -> String.length pre <= String.length pre') ->
  hd "" (Str.split_from sep 0 cur s) = cur ++ pre.
Proof.
  revert cur pre; induction s as [| c s IH]; intros cur pre [post Hocc] Hmin.
  - destruct pre; [simpl; now rewrite append_nil_r | discriminate].
  - cbn [Str.split_from].
    destruct (prefix sep (String c s)) eqn:Hp.
    + apply prefix_iff in Hp; destruct Hp as [r Hr].
      assert (Hle : String.length pre <= String.length "")
        by (apply Hmin; exists r; exact Hr).
      destruct pre; [simpl; now rewrite append_nil_r | simpl in Hle; lia].
    + destruct pre as [| d pre].
      * simpl in Hocc.
        assert (prefix sep (String c s) = true)
          by (apply prefix_iff; now exists post).
        congruence.
      * simpl in Hocc; injection Hocc as -> Hs.
        rewrite (IH (cur ++ String d "") pre).
        -- now rewrite append_assoc.
        -- now exists post.
        -- intros pre' [post' H'].
           assert (Hle : String.length (String d pre) <= String.length (String d pre'))
             by (apply Hmin; exists post'; simpl; now rewrite H').
           simpl in Hle; lia.
Qed.

(** When the separator occurs at all, the first piece is followed by it. *)
Lemma split_from_contains (sep : string) (s cur : string) :
  Str.contains sep s = true ->
  exists pre, hd "" (Str.split_from sep 0 cur s) = cur ++ pre
              /\ occurs sep s pre.
Proof.
  revert cur; induction s as [| c s IH]; intros cur Hc.
  - cbn [Str.contains] in Hc; apply prefix_iff in Hc; destruct Hc as [r Hr].
    exists ""; split; [simpl; now rewrite append_nil_r | now exists r].
  - cbn [Str.split_from]; cbn [Str.contains] in Hc.
    destruct (prefix sep (String c s)) eqn:Hp.
    + apply prefix_iff in Hp; destruct Hp as [r Hr].
      exists ""; split; [simpl; now rewrite append_nil_r | now exists r].
    + simpl in Hc; destruct (IH (cur ++ String c "") Hc) as [pre [Hhd [post Hs]]].
      exists (String c pre); split.
      * now rewrite Hhd, append_assoc.
      * exists post; simpl; now rewrite Hs.
Qed.

Lemma mem_iff (x : string) (items : list string) :
  Str.mem x items = true <-> In x items.
Proof.
  induction items as [| y items IH]; simpl.
  - split; [discriminate | tauto].
  - rewrite orb_true_iff, IH, String.eqb_eq; split; intros [H | H]; auto.
Qed.

End StringFacts.

(** ** The parser as a filter *)

Lemma parse_lines_filter (lines packages : list string) :
  parse_lines lines packages = packages ++ map pkg_name_of (filter keeps lines).
Proof.
  revert packages; induction lines as [| line rest IH]; intros packages.
  - simpl; now rewrite app_nil_r.
  - cbn [parse_lines filter]; unfold keeps.
    destruct (Str.truthy line && Str.contains "==" line); cbn [andb].
    + destruct (negb (Str.mem (Str.lower (pkg_name_of line)) protected)).
      * rewrite IH, <- app_assoc; reflexivity.
      * apply IH.
    + apply IH.
Qed.

Lemma parse_packages_filter (out : string) :
  parse_packages out = map pkg_name_of (filter keeps (output_lines out)).
Proof. unfold parse_packages; now rewrite parse_lines_filter. Qed.

Lemma parse_packages_In (out name : string) :
  In name (parse_packages out) <->
  exists line, In line (output_lines out) /\ keeps line = true
               /\ name = pkg_name_of line.
Proof.
  rewrite parse_packages_filter, in_map_iff; split.
  - intros [line [Hn Hl]]; apply filter_In in Hl; destruct Hl as [Hin Hk].
    exists line; auto.
  - intros [line [Hin [Hk Hn]]]; exists line; split; [auto |].
    apply filter_In; auto.
Qed.

Lemma keeps_separator (line : string) :
  keeps line = true -> Str.contains "==" line = true.
Proof.
  unfold keeps; intros H.
  apply andb_true_iff in H; destruct H as [H _].
  apply andb_true_iff in H; tauto.
Qed.

Lemma keeps_unprotected (line : string) :
  keeps line = true -> ~ In (Str.lower (pkg_name_of line)) protected.
Proof.
  unfold keeps; intros H Hin.
  apply andb_true_iff in H; destruct H as [_ H].
  apply mem_iff in Hin; rewrite Hin in H; discriminate.
Qed.

Lemma protected_lower (p : string) : In p protected -> Str.lower p = p.
Proof.
  intros [<- | [<- | [<- | []]]]; reflexivity.
Qed.

Lemma parsed_unprotected (out name p : string) :
  In name (parse_packages out) -> In p protected -> ~ ci_equal name p.
Proof.
  intros Hn Hp Heq.
  apply parse_packages_In in Hn; destruct Hn as [line [_ [Hk ->]]].
  apply (keeps_unprotected line Hk).
  unfold ci_equal in Heq; rewrite Heq, (protected_lower p Hp); exact Hp.
Qed.

(** ** Traces of the run monad *)

Section TraceInvariants.

Variable Q : event -> Prop.

Lemma Forall_bind {A B : Type} (m : M A) (f : A -> M B) :
  Forall Q (trace m) ->
  (forall a, Forall Q (trace (f a))) ->
  Forall Q (trace (bind m f)).
Proof.
  destruct m as [t [a | e]]; simpl; intros Ht Hf; [| exact Ht].
  specialize (Hf a); destruct (f a) as [t' r]; simpl in *.
  apply Forall_app; auto.
Qed.

Lemma Forall_emit (e : event) : Q e -> Forall Q (trace (emit e)).
Proof. intros H; simpl; auto. Qed.

Lemma Forall_ret {A : Type} (a : A) : Forall Q (trace (ret a)).
Proof. simpl; auto. Qed.

Lemma Forall_subprocess_run (cmd : command) (o : outcome) :
  Q (Spawn cmd) -> Forall Q (trace (subprocess_run cmd o)).
Proof. intros H; destruct o; simpl; auto. Qed.

Hypothesis Q_output : forall text, Q (Output text).
Hypothesis Q_progress : forall current total, Q (Progress current total).

Lemma Forall_report_result (pkg : string) (r : CompletedProcess)
    (failed : list string) :
  Forall Q (trace (report_result pkg r failed)).
Proof.
  unfold report_result.
  destruct (returncode r =? 0)%Z; [| destruct (Str.truthy (stderr r))];
    simpl; auto.
Qed.

Lemma Forall_report_failed (failed : list string) :
  Forall Q (trace (report_failed failed)).
Proof.
  induction failed as [| pkg rest IH]; cbn [report_failed].
  - apply Forall_ret.
  - apply Forall_bind; [apply Forall_emit; auto | intros _; exact IH].
Qed.

Lemma Forall_uninstall_loop (w : World) (total i : nat)
    (packages failed : list string) :
  (forall pkg, In pkg packages -> Q (Spawn (PipUninstall pkg))) ->
  Forall Q (trace (uninstall_loop w total i packages failed)).
Proof.
  revert i failed; induction packages as [| pkg rest IH]; intros i failed Hq;
    cbn [uninstall_loop].
  - apply Forall_ret.
  - apply Forall_bind; [apply Forall_emit; auto | intros _].
    apply Forall_bind; [apply Forall_emit; auto | intros _].
    apply Forall_bind;
      [apply Forall_subprocess_run, Hq; left; reflexivity | intros r].
    apply Forall_bind; [apply Forall_report_result | intros failed'].
    apply IH; intros p Hp; apply Hq; right; exact Hp.
Qed.

End TraceInvariants.

Section RunInvariant.

Variable Q : event -> Prop.
Hypothesis Q_output : forall text, Q (Output text).
Hypothesis Q_progress : forall current total, Q (Progress current total).
Hypothesis Q_finished : forall success message, Q (Finished success message).
Hypothesis Q_list : Q (Spawn PipListFreeze).
Hypothesis Q_uninstall :
  forall out pkg, In pkg (parse_packages out) -> Q (Spawn (PipUninstall pkg)).

Lemma Forall_try_except {A : Type} (body : M A) (handler : string -> M A) :
  Forall Q (trace body) ->
  (forall e, Forall Q (trace (handler e))) ->
  Forall Q (trace (try_except body handler)).
Proof.
  destruct body as [t [a | e]]; simpl; intros Ht Hh; [exact Ht |].
  specialize (Hh e); destruct (handler e) as [t' r]; simpl in *.
  apply Forall_app; auto.
Qed.

Lemma Forall_run_body (w : World) : Forall Q (trace (run_body w)).
Proof.
  unfold run_body.
  apply Forall_bind; [apply Forall_emit; auto | intros _].
  apply Forall_bind; [apply Forall_emit; auto | intros _].
  apply Forall_bind; [apply Forall_subprocess_run; auto | intros r].
  destruct (negb (returncode r =? 0)%Z); [apply Forall_emit; auto |].
  destruct (parse_packages (stdout r)) as [| p ps] eqn:Hparse;
    [apply Forall_emit; auto |].
  do 4 (apply Forall_bind; [apply Forall_emit; auto | intros _]).
  apply Forall_bind.
  - apply Forall_uninstall_loop; auto.
    intros pkg Hin; apply (Q_uninstall (stdout r)); now rewrite Hparse.
  - intros failed.
    apply Forall_bind; [apply Forall_emit; auto | intros _].
    destruct failed as [| f fs]; [apply Forall_emit; auto |].
    apply Forall_bind; [apply Forall_emit; auto | intros _].
    apply Forall_bind; [apply Forall_report_failed; auto | intros _].
    apply Forall_emit; auto.
Qed.

Lemma Forall_run (w : World) : Forall Q (trace (run w)).
Proof.
  unfold run; apply Forall_try_except;
    [apply Forall_run_body | intros e; apply Forall_emit; auto].
Qed.

End RunInvariant.

(** C1: no identifier the parse-and-filter step returns is
    case-insensitively equal to [pip], [setuptools] or [wheel], whatever
    the listing output; hence no run, in any environment, launches an
    uninstall command for such an identifier. *)
Theorem protected_never_removed :
  (forall out,
      Forall (fun name => forall p, In p protected -> ~ ci_equal name p)
        (parse_packages out))
  /\ (forall w, Forall spares_protected (trace (run w))).
Proof.
  split.
  - intros out; apply Forall_forall; intros name Hn p Hp.
    exact (parsed_unprotected out name p Hn Hp).
  - intros w; apply Forall_run; simpl; auto.
    intros out pkg Hin p Hp; exact (parsed_unprotected out pkg p Hin Hp).
Qed.

(** ** One [Finished], and last *)

Lemma terminal_bind {A B : Type} (m : M A) (f : A -> M B) :
  Forall quiet (trace m) -> (forall a, terminal (f a)) -> terminal (bind m f).
Proof.
  destruct m as [t [a | e]]; simpl; intros Ht Hf; [| exact Ht].
  specialize (Hf a); unfold terminal in *.
  destruct (f a) as [t' [b | e']]; simpl in *.
  - destruct Hf as [pre [s [msg [-> Hpre]]]].
    exists (t ++ pre), s, msg; split; [now rewrite app_assoc |].
    apply Forall_app; auto.
  - apply Forall_app; auto.
Qed.

Lemma terminal_finished (success : bool) (message : string) :
  terminal (emit (Finished success message)).
Proof. exists [], success, message; split; [reflexivity | constructor]. Qed.

Lemma quiet_emit (e : event) : quiet e -> Forall quiet (trace (emit e)).
Proof. apply Forall_emit. Qed.

Lemma run_body_terminal (w : World) : terminal (run_body w).
Proof.
  assert (Ho : forall text, quiet (Output text)) by reflexivity.
  assert (Hp : forall c t, quiet (Progress c t)) by reflexivity.
  assert (Hs : forall cmd, quiet (Spawn cmd)) by reflexivity.
  unfold run_body.
  do 2 (apply terminal_bind; [apply quiet_emit; auto | intros _]).
  apply terminal_bind; [apply Forall_subprocess_run; auto | intros r].
  destruct (negb (returncode r =? 0)%Z); [apply terminal_finished |].
  destruct (parse_packages (stdout r)) as [| p ps]; [apply terminal_finished |].
  do 4 (apply terminal_bind; [apply quiet_emit; auto | intros _]).
  apply terminal_bind; [apply Forall_uninstall_loop; auto | intros failed].
  apply terminal_bind; [apply quiet_emit; auto | intros _].
  destruct failed as [| f fs]; [apply terminal_finished |].
  apply terminal_bind; [apply quiet_emit; auto | intros _].
  apply terminal_bind; [apply Forall_report_failed; auto | intros _].
  apply terminal_finished.
Qed.

Lemma run_ends_finished (w : World) :
  value (run w) = Ok tt /\ ends_finished (trace (run w)).
Proof.
  pose proof (run_body_terminal w) as H; unfold run, terminal in *.
  destruct (run_body w) as [t [[] | e]]; simpl in *.
  - split; [reflexivity | exact H].
  - split; [reflexivity |].
    exists t, false, ("Error: " ++ e)%string; auto.
Qed.

Lemma filter_quiet (t : list event) :
  Forall quiet t -> filter is_finished t = [].
Proof.
  induction 1 as [| e t He _ IH]; simpl; [reflexivity |].
  unfold quiet in He; now rewrite He.
Qed.

(** C2: in every environment the run returns without raising, its trace
    holds exactly one [Finished] event, and that event is the last one:
    whether the listing fails, the list is empty, removals fail or a
    command raises. *)
Theorem run_finishes_exactly_once (w : World) :
  value (run w) = Ok tt
  /\ List.length (filter is_finished (trace (run w))) = 1
  /\ exists pre success message,
       trace (run w) = pre ++ [Finished success message]
       /\ Forall (fun e => is_finished e = false) pre.
Proof.
  destruct (run_ends_finished w) as [Hv [pre [s [msg [Ht Hpre]]]]].
  split; [exact Hv | split].
  - rewrite Ht, filter_app, (filter_quiet pre Hpre); reflexivity.
  - exists pre, s, msg; split; [exact Ht | exact Hpre].
Qed.

(** ** Entries and their separator *)

Lemma pkg_name_of_occurs (line : string) :
  Str.contains "==" line = true -> occurs "==" line (pkg_name_of line).
Proof.
  intros Hc; unfold pkg_name_of, Str.split.
  destruct (split_from_contains "==" line "" Hc) as [pre [Hhd Hocc]].
  rewrite Hhd; exact Hocc.
Qed.

(** C3: every identifier the parser returns comes from an output line that
    contains [==], and that line reads identifier, [==], rest; the listing
    [foo==1.0], [bar==2.1], [pip==23.0] yields [foo], [bar]. *)
Theorem entries_need_separator :
  (forall out,
      Forall (fun name =>
                exists line,
                  In line (output_lines out)
                  /\ Str.contains "==" line = true
                  /\ name = pkg_name_of line
                  /\ exists rest, line = (name ++ "==" ++ rest)%string)
        (parse_packages out))
  /\ parse_lines ["foo==1.0"; "bar==2.1"; "pip==23.0"] [] = ["foo"; "bar"]
  /\ output_lines sample_listing = ["foo==1.0"; "bar==2.1"; "pip==23.0"]
  /\ parse_packages sample_listing = ["foo"; "bar"].
Proof.
  split; [| repeat split; reflexivity].
  intros out; apply Forall_forall; intros name Hn.
  apply parse_packages_In in Hn; destruct Hn as [line [Hin [Hk ->]]].
  pose proof (keeps_separator line Hk) as Hc.
  exists line; repeat split; auto.
  exact (pkg_name_of_occurs line Hc).
Qed.

(** C10: when [==] occurs in a line, possibly several times, the parsed
    identifier is the text before its first occurrence, and that is the
    identifier the parser appends unless it is protected. *)
Theorem first_separator_delimits (line pre : string) :
  occurs "==" line pre ->
  (forall pre', occurs "==" line pre' ->
                String.length pre <= String.length pre') ->
  pkg_name_of line = pre
  /\ parse_lines [line] [] =
       (if Str.mem (Str.lower pre) protected then [] else [pre]).
Proof.
  intros Hocc Hmin.
  assert (Hname : pkg_name_of line = pre)
    by (unfold pkg_name_of, Str.split;
        now rewrite (split_from_first "==" line "" pre Hocc Hmin)).
  split; [exact Hname |].
  assert (Hc : Str.contains "==" line = true).
  { destruct Hocc as [post Hp]; apply contains_iff; now exists pre, post. }
  assert (Ht : Str.truthy line = true).
  { destruct line; [| reflexivity].
    destruct Hocc as [post Hp]; destruct pre; discriminate. }
  cbn [parse_lines]; rewrite Ht, Hc, Hname; cbn [andb].
  now destruct (Str.mem (Str.lower pre) protected).
Qed.

Lemma first_separator_delimits_witness :
  pkg_name_of "a==b==1.0" = "a" /\ parse_lines ["a==b==1.0"] [] = ["a"].
Proof.
  apply (first_separator_delimits "a==b==1.0" "a").
  - exists "b==1.0"; reflexivity.
  - intros pre' [post' H]; destruct pre' as [| c pre']; simpl in *;
      [discriminate | lia].
Defined.

(** ** The removal loop, one iteration at a time *)

Lemma bind_emit {B : Type} (e : event) (f : unit -> M B) :
  bind (emit e) f = (e :: trace (f tt), value (f tt)).
Proof. unfold bind, emit; now destruct (f tt). Qed.

Lemma bind_ok {A B : Type} (t : list event) (a : A) (f : A -> M B) :
  bind (t, Ok a) f = (t ++ trace (f a), value (f a)).
Proof. unfold bind; now destruct (f a). Qed.

Lemma trace_report_result (pkg : string) (r : CompletedProcess)
    (failed : list string) :
  report_result pkg r failed =
  (result_lines r,
   Ok (if (returncode r =? 0)%Z then failed else failed ++ [pkg])).
Proof.
  unfold report_result, result_lines.
  destruct (returncode r =? 0)%Z; [reflexivity |].
  now destruct (Str.truthy (stderr r)).
Qed.

Lemma uninstall_loop_returned (w : World) (total i : nat) (pkg : string)
    (rest failed : list string) (r : CompletedProcess) :
  pip_uninstall w i pkg = Returned r ->
  let failed' := if (returncode r =? 0)%Z then failed else failed ++ [pkg] in
  let tail := uninstall_loop w total (S i) rest failed' in
  uninstall_loop w total i (pkg :: rest) failed =
  ([Progress i total; Output (starting_line i total pkg);
    Spawn (PipUninstall pkg)] ++ result_lines r ++ trace tail,
   value tail).
Proof.
  intros Hr; cbn [uninstall_loop]; rewrite Hr; unfold subprocess_run.
  rewrite !bind_emit, bind_ok, trace_report_result, bind_ok.
  reflexivity.
Qed.

Lemma spawned_app (t u : list event) : spawned (t ++ u) = spawned t ++ spawned u.
Proof.
  induction t as [| e t IH]; simpl; [reflexivity |].
  destruct e; simpl; now rewrite IH.
Qed.

Lemma spawned_result_lines (r : CompletedProcess) : spawned (result_lines r) = [].
Proof.
  unfold result_lines.
  destruct (returncode r =? 0)%Z; [| destruct (Str.truthy (stderr r))];
    reflexivity.
Qed.

Lemma failures_cons (w : World) (i : nat) (pkg : string) (rest : list string) :
  failures w i (pkg :: rest) =
  (if exit_nonzero (pip_uninstall w i pkg) then [pkg] else [])
    ++ failures w (S i) rest.
Proof.
  unfold failures, enumerate; simpl.
  now destruct (exit_nonzero (pip_uninstall w i pkg)).
Qed.

(** When every command returns, the loop returns too: it has launched one
    command per identifier, in order, and collected the failures. *)
Lemma uninstall_loop_all_return (w : World) (total : nat)
    (packages : list string) :
  forall i failed,
    all_return w i packages = true ->
    value (uninstall_loop w total i packages failed)
      = Ok (failed ++ failures w i packages)
    /\ spawned (trace (uninstall_loop w total i packages failed))
       = map PipUninstall packages.
Proof.
  induction packages as [| pkg rest IH]; intros i failed Hall.
  - simpl; now rewrite app_nil_r.
  - cbn [all_return] in Hall.
    destruct (pip_uninstall w i pkg) as [r | e] eqn:Hr; [| discriminate].
    rewrite (uninstall_loop_returned w total i pkg rest failed r Hr).
    cbn [value trace fst snd].
    destruct (IH (S i)
                (if (returncode r =? 0)%Z then failed else failed ++ [pkg])
                Hall) as [Hv Hs].
    split.
    + rewrite Hv, failures_cons, Hr; cbn [exit_nonzero].
      destruct (returncode r =? 0)%Z; cbn [negb];
        [reflexivity | now rewrite <- app_assoc].
    + cbn [app spawned]; rewrite spawned_app, spawned_result_lines, Hs.
      reflexivity.
Qed.

Lemma in_enumerate (packages : list string) :
  forall start j pkg,
    In (j, pkg) (enumerate start packages) <->
    exists i, j = start + i /\ nth_error packages i = Some pkg.
Proof.
  unfold enumerate; induction packages as [| p rest IH]; intros start j pkg.
  - simpl; split; [tauto | intros [[| i] [_ H]]; discriminate].
  - cbn [List.length seq combine In]; rewrite IH; split.
    + intros [Heq | [i [Hj Hn]]].
      * injection Heq as <- <-; exists 0; split; [lia | reflexivity].
      * exists (S i); split; [lia | exact Hn].
    + intros [[| i] [Hj Hn]]; simpl in Hn.
      * left; injection Hn as ->; f_equal; lia.
      * right; exists i; split; [lia | exact Hn].
Qed.

Lemma in_failures (w : World) (start : nat) (packages : list string)
    (pkg : string) :
  In pkg (failures w start packages) <->
  exists i, nth_error packages i = Some pkg
            /\ exit_nonzero (pip_uninstall w (start + i) pkg) = true.
Proof.
  unfold failures; rewrite in_map_iff; split.
  - intros [[j p] [Hp Hin]]; simpl in Hp; subst p.
    apply filter_In in Hin; destruct Hin as [Hin Hx]; simpl in Hx.
    apply in_enumerate in Hin; destruct Hin as [i [-> Hn]].
    exists i; auto.
  - intros [i [Hn Hx]]; exists (start + i, pkg); split; [reflexivity |].
    apply filter_In; split; [| exact Hx].
    apply in_enumerate; exists i; auto.
Qed.

Lemma failures_length (w : World) (start : nat) (packages : list string) :
  List.length (failures w start packages) <= List.length packages.
Proof.
  unfold failures, enumerate; rewrite length_map.
  etransitivity; [apply filter_length_le |].
  rewrite length_combine, length_seq; lia.
Qed.

(** C7: when every uninstall command returns an exit status, zero or
    not, the loop launches one command per identifier, in input order,
    returns without raising, and returns as failed exactly the
    identifiers whose command exited non-zero. *)
Theorem loop_attempts_all_in_order (w : World) (packages : list string) :
  all_return w 1 packages = true ->
  let m := uninstall_loop w (List.length packages) 1 packages [] in
  spawned (trace m) = map PipUninstall packages
  /\ value m = Ok (failures w 1 packages)
  /\ forall pkg,
       In pkg (failures w 1 packages) <->
       exists i, nth_error packages i = Some pkg
                 /\ exit_nonzero (pip_uninstall w (S i) pkg) = true.
Proof.
  intros Hall m.
  destruct (uninstall_loop_all_return w (List.length packages) packages 1 []
              Hall) as [Hv Hs].
  split; [exact Hs | split; [exact Hv |]].
  intros pkg; apply in_failures.
Qed.

Lemma loop_attempts_all_in_order_witness :
  spawned (trace (uninstall_loop world_bar_fails 2 1 ["foo"; "bar"] []))
    = [PipUninstall "foo"; PipUninstall "bar"]
  /\ value (uninstall_loop world_bar_fails 2 1 ["foo"; "bar"] [])
     = Ok ["bar"].
Proof.
  destruct (loop_attempts_all_in_order world_bar_fails ["foo"; "bar"]
              eq_refl) as [Hs [Hv _]].
  split; [exact Hs | exact Hv].
Defined.

(** The events around the command of the item at offset [k]. *)
Lemma uninstall_loop_item (w : World) (total : nat) :
  forall k packages i failed pkg r,
    nth_error packages k = Some pkg ->
    all_return w i (firstn k packages) = true ->
    pip_uninstall w (i + k) pkg = Returned r ->
    exists pre post,
      trace (uninstall_loop w total i packages failed) =
        pre ++ [Progress (i + k) total;
                Output (starting_line (i + k) total pkg);
                Spawn (PipUninstall pkg)] ++ result_lines r ++ post
      /\ spawned pre = map PipUninstall (firstn k packages).
Proof.
  induction k as [| k IH]; intros [| p rest] i failed pkg r Hn Hall Hr;
    try discriminate.
  - simpl in Hn; injection Hn as ->; rewrite Nat.add_0_r in *.
    rewrite (uninstall_loop_returned w total i pkg rest failed r Hr).
    cbn [trace fst]; exists []; eexists; split; reflexivity.
  - simpl in Hn; cbn [firstn all_return] in Hall.
    destruct (pip_uninstall w i p) as [r0 | e] eqn:Hr0; [| discriminate].
    rewrite (uninstall_loop_returned w total i p rest failed r0 Hr0).
    cbn [trace fst].
    replace (i + S k) with (S i + k) in * by lia.
    destruct (IH rest (S i)
                (if (returncode r0 =? 0)%Z then failed else failed ++ [p])
                pkg r Hn Hall Hr) as [pre [post [Ht Hs]]].
    exists ([Progress i total; Output (starting_line i total p);
             Spawn (PipUninstall p)] ++ result_lines r0 ++ pre), post.
    split.
    + rewrite Ht, <- !app_assoc; reflexivity.
    + cbn [app spawned firstn map].
      now rewrite spawned_app, spawned_result_lines, Hs.
Qed.

(** C8: for the item at position [S k] of [n], once the commands before
    it have returned, the loop emits [Progress (S k) n] and the starting
    line, then launches the item's command; when that returns with status
    zero the success line follows, otherwise the failure line, followed
    by a line carrying the captured standard error when there is any. *)
Theorem item_events_in_order (w : World) (packages : list string) (k : nat)
    (pkg : string) (r : CompletedProcess) :
  nth_error packages k = Some pkg ->
  all_return w 1 (firstn k packages) = true ->
  pip_uninstall w (S k) pkg = Returned r ->
  let n := List.length packages in
  exists pre after post,
    trace (uninstall_loop w n 1 packages []) =
      pre ++ [Progress (S k) n; Output (starting_line (S k) n pkg);
              Spawn (PipUninstall pkg)] ++ after ++ post
    /\ spawned pre = map PipUninstall (firstn k packages)
    /\ (returncode r = 0%Z -> after = [Output (" ✓ Success" ++ Str.nl)])
    /\ (returncode r <> 0%Z ->
        after = Output (" ✗ Failed" ++ Str.nl)
                  :: (if Str.truthy (stderr r)
                      then [Output ("   Error: " ++ stderr r ++ Str.nl)]
                      else [])
        /\ exists text,
             In (Output text) after
             /\ Str.contains (stderr r) text = true).
Proof.
  intros Hn Hall Hr n.
  destruct (uninstall_loop_item w n k packages 1 [] pkg r Hn Hall Hr)
    as [pre [post [Ht Hs]]].
  exists pre, (result_lines r), post; split; [exact Ht | split; [exact Hs |]].
  unfold result_lines; split.
  - intros ->; reflexivity.
  - intros Hrc; apply Z.eqb_neq in Hrc; rewrite Hrc; split; [reflexivity |].
    destruct (stderr r) as [| c err] eqn:Herr; cbn [Str.truthy].
    + eexists; split; [left; reflexivity |].
      apply contains_iff; exists EmptyString; eexists; reflexivity.
    + eexists; split; [right; left; reflexivity |].
      apply contains_iff; exists "   Error: "%string, Str.nl; reflexivity.
Qed.

Lemma item_events_in_order_witness :
  exists pre after post,
    trace (uninstall_loop world_bar_fails 2 1 ["foo"; "bar"] []) =
      pre ++ [Progress 2 2; Output "[2/2] Uninstalling bar...";
              Spawn (PipUninstall "bar")] ++ after ++ post
    /\ spawned pre = [PipUninstall "foo"]
    /\ In (Output ("   Error: ERROR: cannot uninstall bar" ++ Str.nl)) after.
Proof.
  destruct (item_events_in_order world_bar_fails ["foo"; "bar"] 1 "bar"
              (mkCompleted 1 "" "ERROR: cannot uninstall bar")
              eq_refl eq_refl eq_refl)
    as [pre [after [post [Ht [Hs [_ Hfail]]]]]].
  exists pre, after, post; split; [exact Ht | split; [exact Hs |]].
  destruct (Hfail ltac:(discriminate)) as [-> _].
  right; left; reflexivity.
Defined.

(** ** The run, path by path *)

Lemma run_list_failed (w : World) (r : CompletedProcess) :
  pip_list w = Returned r ->
  returncode r <> 0%Z ->
  run w = ([fetching_line; Progress 0 0; Spawn PipListFreeze;
            Finished false "Failed to get package list"], Ok tt).
Proof.
  intros Hl Hrc; apply Z.eqb_neq in Hrc.
  unfold run, run_body; rewrite Hl; unfold subprocess_run.
  rewrite !bind_emit, bind_ok, Hrc; reflexivity.
Qed.

Lemma run_nothing_to_do (w : World) (r : CompletedProcess) :
  pip_list w = Returned r ->
  returncode r = 0%Z ->
  parse_packages (stdout r) = [] ->
  run w = ([fetching_line; Progress 0 0; Spawn PipListFreeze;
            Finished true "No packages to uninstall"], Ok tt).
Proof.
  intros Hl Hrc Hp.
  unfold run, run_body; rewrite Hl; unfold subprocess_run.
  rewrite !bind_emit, bind_ok, Hrc, Hp; reflexivity.
Qed.

Lemma report_failed_lines (failed : list string) :
  report_failed failed = (map failed_line failed, Ok tt).
Proof.
  induction failed as [| pkg rest IH]; cbn [report_failed map];
    [reflexivity |].
  rewrite bind_emit, IH; reflexivity.
Qed.

Lemma suffix_here {A : Type} (s : list A) : s = [] ++ s.
Proof. reflexivity. Qed.

Lemma suffix_cons {A : Type} (x : A) (l pre s : list A) :
  l = pre ++ s -> x :: l = (x :: pre) ++ s.
Proof. intros ->; reflexivity. Qed.

Lemma suffix_app {A : Type} (t l pre s : list A) :
  l = pre ++ s -> t ++ l = (t ++ pre) ++ s.
Proof. intros ->; now rewrite app_assoc. Qed.

(** Find the prefix of a trace that is known to end in a given suffix. *)
Ltac find_prefix :=
  eexists;
  repeat first [apply suffix_here | apply suffix_cons | apply suffix_app].

(** The run when the listing succeeds and every uninstall returns. *)
Lemma run_all_return (w : World) (r : CompletedProcess) :
  pip_list w = Returned r ->
  returncode r = 0%Z ->
  all_return w 1 (parse_packages (stdout r)) = true ->
  let failed := failures w 1 (parse_packages (stdout r)) in
  exists pre,
    trace (run w) =
    pre ++
    match failed with
    | [] =>
        [Finished true
           (match parse_packages (stdout r) with
            | [] => "No packages to uninstall"
            | _ :: _ =>
                "Successfully uninstalled "
                  ++ Str.of_nat (List.length (parse_packages (stdout r)))
                  ++ " packages!"
            end)]
    | _ :: _ =>
        map failed_line failed
          ++ [Finished false
                ("Failed to uninstall " ++ Str.of_nat (List.length failed)
                   ++ " packages")]
    end.
Proof.
  intros Hl Hrc Hall failed.
  destruct (parse_packages (stdout r)) as [| p ps] eqn:Hp.
  - rewrite (run_nothing_to_do w r Hl Hrc Hp); subst failed.
    exists [fetching_line; Progress 0 0; Spawn PipListFreeze]; reflexivity.
  - unfold run, run_body; rewrite Hl; unfold subprocess_run.
    rewrite !bind_emit, bind_ok, Hrc, Hp; cbn [negb Z.eqb].
    destruct (uninstall_loop_all_return w (List.length (p :: ps)) (p :: ps)
                1 [] Hall) as [Hv _].
    destruct (uninstall_loop w (List.length (p :: ps)) 1 (p :: ps) [])
      as [t v] eqn:Hloop.
    cbn [value snd] in Hv; subst v; cbn [app] in *; fold failed.
    rewrite !bind_emit, bind_ok, bind_emit.
    destruct failed as [| f fs].
    + cbn [try_except trace value fst snd emit app]; find_prefix.
    + rewrite bind_emit, report_failed_lines, bind_ok.
      cbn [try_except trace value fst snd emit app]; find_prefix.
Qed.

(** C4, as the code has it: when the listing succeeds and every uninstall
    command returns, with [k] of the [n] identifiers failing, [Finished]
    carries [success = (k == 0)]; when [k > 0] its message is
    [Failed to uninstall k packages], which gives the count only, and the
    failed identifiers are named, in order, by the [k] output lines emitted
    just before it. *)
Theorem completed_counts_failures (w : World) (r : CompletedProcess) :
  pip_list w = Returned r ->
  returncode r = 0%Z ->
  all_return w 1 (parse_packages (stdout r)) = true ->
  let packages := parse_packages (stdout r) in
  let failed := failures w 1 packages in
  let k := List.length failed in
  k <= List.length packages
  /\ exists pre message,
       trace (run w) = pre ++ [Finished (k =? 0)%nat message]
       /\ (k <> 0 ->
           message = ("Failed to uninstall " ++ Str.of_nat k ++ " packages")%string
           /\ exists pre', pre = pre' ++ map failed_line failed).
Proof.
  intros Hl Hrc Hall packages failed k.
  split; [apply failures_length |].
  destruct (run_all_return w r Hl Hrc Hall) as [pre0 Ht].
  fold packages in Ht; fold failed in Ht; subst k.
  destruct failed as [| f fs].
  - eexists; eexists; split; [exact Ht | intros Hk; now elim Hk].
  - exists (pre0 ++ map failed_line (f :: fs)); eexists; split.
    + rewrite Ht, app_assoc; reflexivity.
    + intros _; split; [reflexivity | now exists pre0].
Qed.

Lemma completed_counts_failures_witness :
  exists pre message,
    trace (run world_bar_fails) = pre ++ [Finished false message]
    /\ message = "Failed to uninstall 1 packages"
    /\ exists pre', pre = pre' ++ [failed_line "bar"].
Proof.
  destruct (completed_counts_failures world_bar_fails
              (mkCompleted 0 sample_listing "") eq_refl eq_refl eq_refl)
    as [_ [pre [message [Ht Hk]]]].
  destruct (Hk ltac:(discriminate)) as [Hm Hpre].
  exists pre, message; split; [exact Ht | split; [exact Hm | exact Hpre]].
Defined.

(** C4, as stated, fails: with [foo] and [bar] to remove and [bar]
    failing, the [Finished] message is [Failed to uninstall 1 packages],
    in which [bar] does not occur. *)
Lemma summary_omits_failed_names :
  failures world_bar_fails 1 (parse_packages sample_listing) = ["bar"]
  /\ last (trace (run world_bar_fails)) fetching_line
     = Finished false "Failed to uninstall 1 packages"
  /\ Str.contains "bar" "Failed to uninstall 1 packages" = false.
Proof. repeat split; reflexivity. Qed.

(** C5, as the code has it: when the listing command exits non-zero the
    run emits nothing about the failure but [Finished]: its events are the
    announcement made before the command, the indeterminate progress, the
    listing command and [Finished false "Failed to get package list"];
    no uninstall command is launched. *)
Theorem list_failure_stops (w : World) (r : CompletedProcess) :
  pip_list w = Returned r ->
  returncode r <> 0%Z ->
  run w = ([fetching_line; Progress 0 0; Spawn PipListFreeze;
            Finished false "Failed to get package list"], Ok tt)
  /\ filter is_uninstall (trace (run w)) = [].
Proof.
  intros Hl Hrc; rewrite (run_list_failed w r Hl Hrc); split; reflexivity.
Qed.

Lemma list_failure_stops_witness :
  run world_list_fails
    = ([fetching_line; Progress 0 0; Spawn PipListFreeze;
        Finished false "Failed to get package list"], Ok tt)
  /\ filter is_uninstall (trace (run world_list_fails)) = [].
Proof.
  apply (list_failure_stops world_list_fails (mkCompleted 1 "" "pip: broken")).
  - reflexivity.
  - simpl; lia.
Defined.

(** C5, as stated, fails: when the listing exits with status 1 no output
    line stands between the listing command and [Finished]. *)
Lemma list_failure_emits_no_line :
  pip_list world_list_fails = Returned (mkCompleted 1 "" "pip: broken")
  /\ trace (run world_list_fails)
     = [fetching_line; Progress 0 0; Spawn PipListFreeze;
        Finished false "Failed to get package list"]
  /\ ~ (exists pre text message,
           trace (run world_list_fails)
           = pre ++ [Output text; Finished false message]).
Proof.
  split; [reflexivity | split; [reflexivity |]].
  intros [pre [text [message H]]].
  apply (f_equal (fun t => nth_error (rev t) 1)) in H.
  rewrite rev_app_distr in H; discriminate H.
Qed.

(** C6: when the listing succeeds and no identifier is left after
    filtering, the run is the announcement, the indeterminate progress,
    the listing command and [Finished true "No packages to uninstall"]:
    no uninstall command, no failure line. *)
Theorem empty_list_completes (w : World) (r : CompletedProcess) :
  pip_list w = Returned r ->
  returncode r = 0%Z ->
  parse_packages (stdout r) = [] ->
  run w = ([fetching_line; Progress 0 0; Spawn PipListFreeze;
            Finished true "No packages to uninstall"], Ok tt)
  /\ filter is_uninstall (trace (run w)) = [].
Proof.
  intros Hl Hrc Hp; rewrite (run_nothing_to_do w r Hl Hrc Hp).
  split; reflexivity.
Qed.

Lemma empty_list_completes_witness :
  run world_nothing
    = ([fetching_line; Progress 0 0; Spawn PipListFreeze;
        Finished true "No packages to uninstall"], Ok tt)
  /\ filter is_uninstall (trace (run world_nothing)) = [].
Proof.
  apply (empty_list_completes world_nothing
           (mkCompleted 0 ("pip==23.0" ++ Str.nl ++ "Wheel==0.40" ++ Str.nl) ""));
    reflexivity.
Defined.

(** ** The confirmation dialog *)

Lemma accept_starts_run (w : World) (g : Gui) :
  confirm_uninstall w Yes g = start_uninstall w g
  /\ idle (fst (confirm_uninstall w Yes g)) = false
  /\ snd (confirm_uninstall w Yes g) = trace (run w).
Proof. repeat split. Qed.

(** C9: answering No leaves the window as it was, idle if it was idle,
    and starts no thread: no listing and no uninstall command is
    launched. *)
Theorem decline_changes_nothing (w : World) (g : Gui) :
  confirm_uninstall w No g = (g, [])
  /\ idle (fst (confirm_uninstall w No g)) = idle g
  /\ spawned (snd (confirm_uninstall w No g)) = [].
Proof. repeat split. Qed.

(** ** Sample runs *)

Example split_leftmost :
  Str.split "==" "a===b" = ["a"; "=b"]
  /\ Str.split "==" "a==b==1.0" = ["a"; "b"; "1.0"]
  /\ Str.split "==" "" = [""].
Proof. repeat split. Qed.

Example strip_then_split :
  output_lines ("  foo==1.0" ++ Str.nl ++ Str.nl ++ "bar" ++ Str.nl ++ " ")
  = ["foo==1.0"; ""; "bar"].
Proof. reflexivity. Qed.

Example mixed_case_is_protected :
  parse_lines ["PIP==23.0"; "SetupTools==68.0"; "wheel==0.40"; "Pillow==10.0"] []
  = ["Pillow"].
Proof. reflexivity. Qed.

Example run_world_ok :
  spawned (trace (run world_ok))
    = [PipListFreeze; PipUninstall "foo"; PipUninstall "bar"]
  /\ last (trace (run world_ok)) fetching_line
     = Finished true "Successfully uninstalled 2 packages!".
Proof. split; reflexivity. Qed.

Example run_world_raises :
  spawned (trace (run world_raises))
    = [PipListFreeze; PipUninstall "foo"; PipUninstall "bar"]
  /\ last (trace (run world_raises)) fetching_line
     = Finished false "Error: [Errno 12] Cannot allocate memory"
  /\ value (run world_raises) = Ok tt.
Proof. repeat split; reflexivity. Qed.

Example accept_from_initial_window :
  idle initial_gui = true
  /\ idle (fst (confirm_uninstall world_ok Yes initial_gui)) = false
  /\ fst (confirm_uninstall world_ok No initial_gui) = initial_gui.
Proof. repeat split. Qed.

(** ** The shape of a run that reaches the loop *)

Lemma bind_exc {A B : Type} (t : list event) (e : string) (f : A -> M B) :
  bind (t, Exc e) f = (t, Exc e).
Proof. reflexivity. Qed.

Lemma run_with_packages (w : World) (r : CompletedProcess) (p : string)
    (ps : list string) :
  pip_list w = Returned r ->
  returncode r = 0%Z ->
  parse_packages (stdout r) = p :: ps ->
  let loop := uninstall_loop w (List.length (p :: ps)) 1 (p :: ps) [] in
  run w = (opening (p :: ps) ++ trace loop
             ++ closing (List.length (p :: ps)) (value loop), Ok tt).
Proof.
  intros Hl Hrc Hp loop; subst loop.
  unfold run, run_body; rewrite Hl; unfold subprocess_run.
  rewrite !bind_emit, bind_ok, Hrc, Hp; cbn [negb Z.eqb].
  destruct (uninstall_loop w (List.length (p :: ps)) 1 (p :: ps) [])
    as [t [failed | e]].
  - rewrite !bind_emit, bind_ok, bind_emit.
    destruct failed as [| f fs].
    + reflexivity.
    + rewrite bind_emit, report_failed_lines, bind_ok.
      cbn [try_except trace value fst snd emit app opening closing].
      unfold fetching_line; rewrite <- ?app_assoc; reflexivity.
  - rewrite !bind_emit, bind_exc.
    cbn [try_except trace value fst snd emit app opening closing].
    unfold fetching_line; rewrite <- ?app_assoc; reflexivity.
Qed.

Lemma run_list_raised (w : World) (message : string) :
  pip_list w = Raised message ->
  run w = ([fetching_line; Progress 0 0; Spawn PipListFreeze;
            Finished false ("Error: " ++ message)], Ok tt).
Proof.
  intros Hl; unfold run, run_body; rewrite Hl; unfold subprocess_run.
  rewrite !bind_emit, bind_exc; reflexivity.
Qed.

Lemma progresses_app (t u : list event) :
  progresses (t ++ u) = progresses t ++ progresses u.
Proof.
  induction t as [| e t IH]; simpl; [reflexivity |].
  destruct e; simpl; now rewrite IH.
Qed.

Lemma outputs_app (t u : list event) : outputs (t ++ u) = outputs t ++ outputs u.
Proof.
  induction t as [| e t IH]; simpl; [reflexivity |].
  destruct e; simpl; now rewrite IH.
Qed.

Lemma progresses_result_lines (r : CompletedProcess) :
  progresses (result_lines r) = [].
Proof.
  unfold result_lines.
  destruct (returncode r =? 0)%Z; [| destruct (Str.truthy (stderr r))];
    reflexivity.
Qed.

Lemma quiet_failed_lines (failed : list string) :
  spawned (map failed_line failed) = []
  /\ progresses (map failed_line failed) = [].
Proof. induction failed as [| f fs [IH1 IH2]]; simpl; auto. Qed.

Lemma quiet_closing (total : nat) (v : result (list string)) :
  spawned (closing total v) = [] /\ progresses (closing total v) = [].
Proof.
  destruct v as [[| f fs] | e]; cbn [closing]; try (split; reflexivity).
  destruct (quiet_failed_lines (f :: fs)) as [Hs Hp].
  rewrite !spawned_app, !progresses_app, Hs, Hp; split; reflexivity.
Qed.

(** However the loop ends, it has gone through a prefix of the list: one
    progress signal and one command for each identifier reached. *)
Lemma uninstall_loop_prefix (w : World) (total : nat) (packages : list string) :
  forall i failed,
  exists m,
    m <= List.length packages
    /\ spawned (trace (uninstall_loop w total i packages failed))
       = map PipUninstall (firstn m packages)
    /\ progresses (trace (uninstall_loop w total i packages failed))
       = map (fun j => (j, total)) (seq i m).
Proof.
  induction packages as [| pkg rest IH]; intros i failed.
  - exists 0; repeat split; auto.
  - destruct (pip_uninstall w i pkg) as [r | e] eqn:Hr.
    + rewrite (uninstall_loop_returned w total i pkg rest failed r Hr).
      destruct (IH (S i)
                  (if (returncode r =? 0)%Z then failed else failed ++ [pkg]))
        as [m [Hm [Hs Hp]]].
      exists (S m); cbn [trace fst app spawned progresses List.length].
      rewrite spawned_app, progresses_app, spawned_result_lines,
        progresses_result_lines, Hs, Hp.
      split; [lia | split; reflexivity].
    + exists 1; cbn [uninstall_loop]; rewrite Hr; unfold subprocess_run.
      rewrite !bind_emit, bind_exc.
      split; [simpl; lia | split; reflexivity].
Qed.

(** The commands and the progress signals of a run advance together. *)
Lemma run_lockstep (w : World) :
  exists m,
    m <= List.length (listed w)
    /\ spawned (trace (run w))
       = PipListFreeze :: map PipUninstall (firstn m (listed w))
    /\ progresses (trace (run w))
       = (0, 0) :: map (fun j => (j, List.length (listed w))) (seq 1 m).
Proof.
  unfold listed.
  destruct (pip_list w) as [r | e] eqn:Hl.
  - destruct (returncode r =? 0)%Z eqn:Hrc.
    + apply Z.eqb_eq in Hrc.
      destruct (parse_packages (stdout r)) as [| p ps] eqn:Hp.
      * rewrite (run_nothing_to_do w r Hl Hrc Hp).
        exists 0; repeat split; auto.
      * rewrite (run_with_packages w r p ps Hl Hrc Hp).
        destruct (uninstall_loop_prefix w (List.length (p :: ps)) (p :: ps) 1 [])
          as [m [Hm [Hs Hg]]].
        destruct (quiet_closing (List.length (p :: ps))
                    (value (uninstall_loop w (List.length (p :: ps)) 1
                              (p :: ps) []))) as [Hcs Hcp].
        exists m; cbn [trace fst]; split; [exact Hm |].
        rewrite !spawned_app, !progresses_app, Hs, Hg, Hcs, Hcp, !app_nil_r.
        split; reflexivity.
    + apply Z.eqb_neq in Hrc; rewrite (run_list_failed w r Hl Hrc).
      exists 0; repeat split; auto.
  - rewrite (run_list_raised w e Hl); exists 0; repeat split; auto.
Qed.

(** X5: in every environment the commands of a run are the listing
    command, once and first, followed by uninstall commands for an initial
    segment of the filtered list, in list order: no entry of the list is
    attempted twice or out of turn, and nothing outside the list is. *)
Theorem run_commands_follow_listing (w : World) :
  exists m,
    m <= List.length (listed w)
    /\ spawned (trace (run w))
       = PipListFreeze :: map PipUninstall (firstn m (listed w)).
Proof.
  destruct (run_lockstep w) as [m [Hm [Hs _]]]; exists m; auto.
Qed.

(** X8: in every environment the progress signals of a run are the
    indeterminate [(0, 0)] followed by [(1, n), (2, n), ...] up to the
    last identifier reached, [n] being the number of identifiers to
    remove: the count goes up by one and never passes [n]. *)
Theorem run_progress_counts_up (w : World) :
  exists m,
    m <= List.length (listed w)
    /\ progresses (trace (run w))
       = (0, 0) :: map (fun j => (j, List.length (listed w))) (seq 1 m).
Proof.
  destruct (run_lockstep w) as [m [Hm [_ Hp]]]; exists m; auto.
Qed.

(** X6: when launching the listing command raises, the exception is
    caught: [Finished false "Error: ..."] with its text follows the
    command at once, nothing is uninstalled and [run] returns. *)
Theorem listing_exception_is_reported (w : World) (message : string) :
  pip_list w = Raised message ->
  run w = ([fetching_line; Progress 0 0; Spawn PipListFreeze;
            Finished false ("Error: " ++ message)], Ok tt)
  /\ filter is_uninstall (trace (run w)) = [].
Proof.
  intros Hl; rewrite (run_list_raised w message Hl); split; reflexivity.
Qed.

Lemma listing_exception_is_reported_witness :
  run (mkWorld (Raised "[Errno 2] No such file") (fun _ _ => exit_with 0 "" ""))
  = ([fetching_line; Progress 0 0; Spawn PipListFreeze;
      Finished false "Error: [Errno 2] No such file"], Ok tt)
  /\ filter is_uninstall
       (trace (run (mkWorld (Raised "[Errno 2] No such file")
                      (fun _ _ => exit_with 0 "" "")))) = [].
Proof.
  apply (listing_exception_is_reported
           (mkWorld (Raised "[Errno 2] No such file")
              (fun _ _ => exit_with 0 "" ""))
           "[Errno 2] No such file").
  reflexivity.
Defined.

(** The loop when the command of the item at offset [k] is the first to
    raise. *)
Lemma uninstall_loop_raised (w : World) (total : nat) :
  forall k packages i failed pkg message,
    nth_error packages k = Some pkg ->
    all_return w i (firstn k packages) = true ->
    pip_uninstall w (i + k) pkg = Raised message ->
    value (uninstall_loop w total i packages failed) = Exc message
    /\ (exists pre,
           trace (uninstall_loop w total i packages failed)
           = pre ++ [Spawn (PipUninstall pkg)])
    /\ spawned (trace (uninstall_loop w total i packages failed))
       = map PipUninstall (firstn (S k) packages).
Proof.
  induction k as [| k IH]; intros [| p rest] i failed pkg message Hn Hall Hr;
    try discriminate.
  - simpl in Hn; injection Hn as ->; rewrite Nat.add_0_r in Hr.
    cbn [uninstall_loop]; rewrite Hr; unfold subprocess_run.
    rewrite !bind_emit, bind_exc; cbn [trace value fst snd].
    split; [reflexivity | split; [| reflexivity]].
    exists [Progress i total; Output (starting_line i total pkg)]; reflexivity.
  - simpl in Hn; cbn [firstn all_return] in Hall.
    destruct (pip_uninstall w i p) as [r0 | e] eqn:Hr0; [| discriminate].
    rewrite (uninstall_loop_returned w total i p rest failed r0 Hr0).
    cbn [trace value fst snd].
    replace (i + S k) with (S i + k) in Hr by lia.
    destruct (IH rest (S i)
                (if (returncode r0 =? 0)%Z then failed else failed ++ [p])
                pkg message Hn Hall Hr) as [Hv [[pre Ht] Hs]].
    split; [exact Hv | split].
    + rewrite Ht; find_prefix.
    + cbn [app spawned]; rewrite spawned_app, spawned_result_lines, Hs.
      reflexivity.
Qed.

(** X7: when the listing succeeds and the command of the item at
    position [S k] is the first to raise, the run stops there: the
    commands launched are those of the first [S k] identifiers, no later
    identifier is attempted, and [Finished false "Error: ..."] with the
    exception's text follows the raising command at once, without the
    summary of the failures recorded so far. *)
Theorem uninstall_exception_stops_run (w : World) (r : CompletedProcess)
    (k : nat) (pkg message : string) :
  pip_list w = Returned r ->
  returncode r = 0%Z ->
  nth_error (parse_packages (stdout r)) k = Some pkg ->
  all_return w 1 (firstn k (parse_packages (stdout r))) = true ->
  pip_uninstall w (S k) pkg = Raised message ->
  value (run w) = Ok tt
  /\ (exists pre,
         trace (run w)
         = pre ++ [Spawn (PipUninstall pkg);
                   Finished false ("Error: " ++ message)])
  /\ spawned (trace (run w))
     = PipListFreeze
         :: map PipUninstall (firstn (S k) (parse_packages (stdout r))).
Proof.
  intros Hl Hrc Hn Hall Hr.
  destruct (parse_packages (stdout r)) as [| p ps] eqn:Hp;
    [destruct k; discriminate |].
  rewrite (run_with_packages w r p ps Hl Hrc Hp).
  destruct (uninstall_loop_raised w (List.length (p :: ps)) k (p :: ps) 1 []
              pkg message Hn Hall Hr) as [Hv [[pre Ht] Hs]].
  cbn [trace value fst snd]; rewrite Hv, Ht; cbn [closing].
  split; [reflexivity | split].
  - exists (opening (p :: ps) ++ pre); rewrite <- !app_assoc; reflexivity.
  - rewrite <- Ht, !spawned_app, Hs; cbn [opening spawned app].
    now rewrite app_nil_r.
Qed.

Lemma uninstall_exception_stops_run_witness :
  value (run world_raises) = Ok tt
  /\ (exists pre,
         trace (run world_raises)
         = pre ++ [Spawn (PipUninstall "bar");
                   Finished false "Error: [Errno 12] Cannot allocate memory"])
  /\ spawned (trace (run world_raises))
     = [PipListFreeze; PipUninstall "foo"; PipUninstall "bar"].
Proof.
  apply (uninstall_exception_stops_run world_raises
           (mkCompleted 0 sample_listing "") 1 "bar"
           "[Errno 12] Cannot allocate memory"); reflexivity.
Defined.

(** ** The window while a run is handled *)

Lemma Forall_firstn {A : Type} (P : A -> Prop) (n : nat) (l : list A) :
  Forall P l -> Forall P (firstn n l).
Proof.
  revert l; induction n as [| n IH]; intros l H; [constructor |].
  destruct H; simpl; constructor; auto.
Qed.

Lemma deliver_all_app (t u : list event) (g : Gui) :
  deliver_all (t ++ u) g =
  (fst (deliver_all u (fst (deliver_all t g))),
   snd (deliver_all t g) ++ snd (deliver_all u (fst (deliver_all t g)))).
Proof.
  revert g; induction t as [| e t IH]; intros g; cbn [app deliver_all].
  - cbn [fst snd app]; now destruct (deliver_all u g).
  - destruct (deliver e g) as [g1 d1]; rewrite IH.
    destruct (deliver_all t g1) as [g2 d2]; cbn [fst snd].
    now rewrite app_assoc.
Qed.

(** Output, progress and launches leave the controls alone and open no
    box. *)
Lemma deliver_quiet (e : event) (g : Gui) :
  quiet e ->
  snd (deliver e g) = []
  /\ uninstall_button_enabled (fst (deliver e g)) = uninstall_button_enabled g
  /\ info_button_enabled (fst (deliver e g)) = info_button_enabled g
  /\ clear_button_enabled (fst (deliver e g)) = clear_button_enabled g
  /\ progress_visible (fst (deliver e g)) = progress_visible g.
Proof.
  destruct e as [text | current total | success message | cmd]; intros Hq;
    try discriminate Hq; cbn [deliver fst snd]; try (repeat split; reflexivity).
  unfold update_progress; destruct (total =? 0)%nat; repeat split; reflexivity.
Qed.

Lemma deliver_all_quiet (t : list event) :
  forall g,
    Forall quiet t ->
    snd (deliver_all t g) = []
    /\ uninstall_button_enabled (fst (deliver_all t g))
       = uninstall_button_enabled g
    /\ info_button_enabled (fst (deliver_all t g)) = info_button_enabled g
    /\ clear_button_enabled (fst (deliver_all t g)) = clear_button_enabled g
    /\ progress_visible (fst (deliver_all t g)) = progress_visible g.
Proof.
  induction t as [| e t IH]; intros g Hq; [repeat split; reflexivity |].
  inversion Hq as [| ? ? He Ht]; subst.
  destruct (deliver_quiet e g He) as [Hd [H1 [H2 [H3 H4]]]].
  cbn [deliver_all]; destruct (deliver e g) as [g1 d1]; cbn [fst snd] in *.
  destruct (IH g1 Ht) as [Hd' [H1' [H2' [H3' H4']]]].
  destruct (deliver_all t g1) as [g2 d2]; cbn [fst snd] in *; subst.
  repeat split; congruence.
Qed.

Lemma deliver_log (e : event) (g : Gui) :
  output_text (fst (deliver e g)) = output_text g ++ outputs [e].
Proof.
  destruct e as [text | current total | success message | cmd];
    cbn [deliver outputs fst uninstall_finished update_output output_text];
    rewrite ?app_nil_r; try reflexivity.
  unfold update_progress; now destruct (total =? 0)%nat.
Qed.

Lemma deliver_all_log (t : list event) :
  forall g, output_text (fst (deliver_all t g)) = output_text g ++ outputs t.
Proof.
  induction t as [| e t IH]; intros g; cbn [deliver_all].
  - cbn [fst outputs]; now rewrite app_nil_r.
  - pose proof (deliver_log e g) as He; specialize (IH (fst (deliver e g))).
    destruct (deliver e g) as [g1 d1]; cbn [fst] in IH, He.
    destruct (deliver_all t g1) as [g2 d2].
    cbn [fst snd] in *; rewrite IH, He, <- app_assoc.
    change (e :: t) with ([e] ++ t); now rewrite outputs_app.
Qed.

Lemma confirm_yes (w : World) (g : Gui) :
  confirm_uninstall w Yes g = (fst (start_uninstall w g), trace (run w)).
Proof. reflexivity. Qed.

Lemma session_deliver (w : World) (g : Gui) :
  session w g = deliver_all (trace (run w)) (fst (start_uninstall w g)).
Proof. reflexivity. Qed.

Lemma during_deliver (w : World) (g : Gui) (n : nat) :
  during w g n
  = deliver_all (firstn n (trace (run w))) (fst (start_uninstall w g)).
Proof. reflexivity. Qed.

(** X9: whatever the environment and the window before, once the run an
    accepted confirmation starts has been handled the three buttons are
    enabled again, the progress bar is hidden, and exactly one box has
    been shown: an information box when the run's [Finished] reports
    success, a warning otherwise, with its message. *)
Theorem session_restores_controls (w : World) (g : Gui) :
  idle (fst (session w g)) = true
  /\ exists pre success message,
       trace (run w) = pre ++ [Finished success message]
       /\ snd (session w g)
          = [if success then Information "Complete" message
             else Warning "Error" message].
Proof.
  destruct (run_ends_finished w) as [_ [pre [success [message [Ht Hq]]]]].
  rewrite session_deliver, Ht, deliver_all_app.
  destruct (deliver_all_quiet pre (fst (start_uninstall w g)) Hq)
    as [Hd _].
  rewrite Hd; cbn [deliver_all deliver uninstall_finished fst snd app].
  split; [reflexivity |].
  exists pre, success, message; split; reflexivity.
Qed.

(** X10: as long as the run's last event has not been handled, the three
    buttons stay disabled and the progress bar stays shown, and no box
    has been opened: no second run can be started meanwhile. *)
Theorem controls_disabled_while_running (w : World) (g : Gui) (n : nat) :
  n < List.length (trace (run w)) ->
  busy (fst (during w g n)) = true /\ snd (during w g n) = [].
Proof.
  intros Hn.
  destruct (run_ends_finished w) as [_ [pre [success [message [Ht Hq]]]]].
  rewrite during_deliver, Ht in *.
  rewrite length_app in Hn; cbn [List.length] in Hn.
  rewrite firstn_app.
  replace (n - List.length pre) with 0 by lia; cbn [firstn]; rewrite app_nil_r.
  destruct (deliver_all_quiet (firstn n pre) (fst (start_uninstall w g))
              (Forall_firstn quiet n pre Hq)) as [Hd [H1 [H2 [H3 H4]]]].
  split; [| exact Hd].
  unfold busy; rewrite H1, H2, H3, H4; reflexivity.
Qed.

Lemma controls_disabled_while_running_witness :
  busy (fst (during world_bar_fails initial_gui 12)) = true
  /\ snd (during world_bar_fails initial_gui 12) = [].
Proof.
  apply (controls_disabled_while_running world_bar_fails initial_gui 12).
  vm_compute; lia.
Defined.

(** X11: the log shows, in order, exactly the texts of the output
    signals handled so far; what the log held before the run is gone. *)
Theorem log_follows_output (w : World) (g : Gui) :
  (forall n,
      output_text (fst (during w g n)) = outputs (firstn n (trace (run w))))
  /\ output_text (fst (session w g)) = outputs (trace (run w)).
Proof.
  split; [intros n; rewrite during_deliver | rewrite session_deliver];
    now rewrite deliver_all_log.
Qed.

(** ** The progress bar *)

Lemma run_starts (w : World) :
  exists rest, trace (run w) = fetching_line :: Progress 0 0 :: rest.
Proof.
  destruct (pip_list w) as [r | e] eqn:Hl.
  - destruct (returncode r =? 0)%Z eqn:Hrc.
    + apply Z.eqb_eq in Hrc.
      destruct (parse_packages (stdout r)) as [| p ps] eqn:Hp.
      * rewrite (run_nothing_to_do w r Hl Hrc Hp); eexists; reflexivity.
      * rewrite (run_with_packages w r p ps Hl Hrc Hp); eexists; reflexivity.
    + apply Z.eqb_neq in Hrc; rewrite (run_list_failed w r Hl Hrc).
      eexists; reflexivity.
  - rewrite (run_list_raised w e Hl); eexists; reflexivity.
Qed.

Lemma in_range_progresses (t : list event) :
  (forall current total,
      In (current, total) (progresses t) -> 1 <= current <= total) ->
  Forall in_range t.
Proof.
  induction t as [| e t IH]; intros H; constructor.
  - destruct e; cbn [in_range]; auto.
    apply H; left; reflexivity.
  - apply IH; intros c n Hin; apply H.
    destruct e; cbn [progresses]; auto; right; exact Hin.
Qed.

(** After the first two events every progress signal of a run is in
    range. *)
Lemma run_progress_in_range (w : World) :
  exists rest,
    trace (run w) = fetching_line :: Progress 0 0 :: rest
    /\ Forall in_range rest.
Proof.
  destruct (run_starts w) as [rest Ht]; exists rest; split; [exact Ht |].
  destruct (run_lockstep w) as [m [Hm [_ Hp]]].
  rewrite Ht in Hp; cbn [progresses fetching_line] in Hp.
  injection Hp as Hp.
  apply in_range_progresses; rewrite Hp; intros c n Hin.
  apply in_map_iff in Hin; destruct Hin as [j [Heq Hj]].
  injection Heq as <- <-; apply in_seq in Hj; lia.
Qed.

Lemma deliver_all_in_range (t : list event) :
  forall g,
    Forall in_range t ->
    progress_value g <= progress_maximum g ->
    progress_value (fst (deliver_all t g))
    <= progress_maximum (fst (deliver_all t g)).
Proof.
  induction t as [| e t IH]; intros g Hr Hg; [exact Hg |].
  inversion Hr as [| ? ? He Ht]; subst.
  cbn [deliver_all].
  assert (H1 : progress_value (fst (deliver e g))
               <= progress_maximum (fst (deliver e g))).
  { destruct e as [text | current total | success message | cmd];
      cbn [deliver fst uninstall_finished update_output progress_value
             progress_maximum]; auto.
    cbn [in_range] in He; unfold update_progress.
    destruct (total =? 0)%nat eqn:Hz; [apply Nat.eqb_eq in Hz; lia |].
    cbn [progress_value progress_maximum]; lia. }
  specialize (IH (fst (deliver e g)) Ht H1).
  destruct (deliver e g) as [g1 d1]; cbn [fst] in IH.
  destruct (deliver_all t g1) as [g2 d2]; exact IH.
Qed.

(** X12: at every moment of a run the value last given to the progress
    bar is at most the maximum last given to it, whatever the environment
    and however far the run's signals have been handled. *)
Theorem progress_bar_within_range (w : World) (g : Gui) (n : nat) :
  progress_value (fst (during w g n)) <= progress_maximum (fst (during w g n)).
Proof.
  rewrite during_deliver.
  destruct (run_progress_in_range w) as [rest [Ht Hr]]; rewrite Ht.
  destruct n as [| [| n]]; try (cbn; lia).
  change (firstn (S (S n)) (fetching_line :: Progress 0 0 :: rest))
    with ([fetching_line; Progress 0 0] ++ firstn n rest).
  rewrite deliver_all_app; cbn [fst].
  apply deliver_all_in_range; [apply Forall_firstn; exact Hr |].
  cbn; lia.
Qed.

(** X13: Show Installed Packages replaces the log instead of adding to
    it: showing twice leaves what the second showing alone leaves, with
    two entries, whether [pip list] returned or raised; the controls and
    the progress bar are as before. *)
Theorem show_packages_replaces_log (o o' : outcome) (g : Gui) :
  show_packages o (show_packages o' g) = show_packages o g
  /\ List.length (output_text (show_packages o g)) = 2
  /\ idle (show_packages o g) = idle g
  /\ busy (show_packages o g) = busy g.
Proof. destruct o, o'; repeat split. Qed.

(** ** White space *)

Section Strip.

Local Open Scope string_scope.

Lemma lstrip_app_space (l s : string) :
  all_space l = true -> Str.lstrip (l ++ s) = Str.lstrip s.
Proof.
  induction l as [| c l IH]; intros H; [reflexivity |].
  cbn [all_space] in H; apply andb_true_iff in H; destruct H as [Hc Hl].
  cbn [append Str.lstrip]; rewrite Hc; auto.
Qed.






Lemma strip_space (s : string) : all_space s = true -> Str.strip s = "".
Proof.
  intros H; unfold Str.strip.
  rewrite <- (append_nil_r s), (lstrip_app_space s "" H); reflexivity.
Qed.




End Strip.

(** ** Starting without PyQt6 *)

(** X14: when PyQt6 cannot be imported the script never goes on to the
    application: whatever is answered, and whether the installation
    succeeds, fails or raises, the interpreter exits with status 1; the
    install command is launched at most once. *)
Theorem missing_pyqt6_exits_1 (c : Terminal) :
  exit_status (snd (missing_pyqt6 c)) = 1%Z
  /\ List.length
       (filter (fun e => match e with InstallPyQt6 => true | _ => false end)
          (fst (missing_pyqt6 c))) <= 1.
Proof.
  unfold missing_pyqt6, install_pyqt6.
  destruct (choice_line c) as [line |]; [| split; [reflexivity | simpl; lia]].
  destruct (Str.lower (Str.strip line) =? "y")%string.
  - destruct (install c) as [r | e]; [destruct (returncode r =? 0)%Z |];
      destruct (enter_line c); split; try reflexivity; simpl; lia.
  - destruct (enter_line c); split; try reflexivity; simpl; lia.
Qed.



(** ** Lines and identifiers *)

Section Lines.

Local Open Scope string_scope.

Lemma length_append (a b : string) :
  String.length (a ++ b) = String.length a + String.length b.
Proof. induction a as [| c a IH]; simpl; [reflexivity | now rewrite IH]. Qed.

(** Where the first piece of a split ends is the leftmost occurrence of
    the separator. *)
Lemma split_from_leftmost (sep : string) (s cur : string) :
  Str.contains sep s = true ->
  exists pre,
    hd "" (Str.split_from sep 0 cur s) = cur ++ pre
    /\ occurs sep s pre
    /\ forall pre', occurs sep s pre' ->
                    String.length pre <= String.length pre'.
Proof.
  revert cur; induction s as [| c s IH]; intros cur Hc.
  - cbn [Str.contains] in Hc; apply prefix_iff in Hc; destruct Hc as [r Hr].
    exists ""; split; [simpl; now rewrite append_nil_r |].
    split; [now exists r | intros; simpl; lia].
  - cbn [Str.split_from]; cbn [Str.contains] in Hc.
    destruct (prefix sep (String c s)) eqn:Hp.
    + apply prefix_iff in Hp; destruct Hp as [r Hr].
      exists ""; split; [simpl; now rewrite append_nil_r |].
      split; [now exists r | intros; simpl; lia].
    + simpl in Hc.
      destruct (IH (cur ++ String c "") Hc) as [pre [Hhd [[post Hs] Hmin]]].
      exists (String c pre); split; [now rewrite Hhd, append_assoc |].
      split; [exists post; simpl; now rewrite Hs |].
      intros [| d pre'] [post' H'].
      * assert (prefix sep (String c s) = true)
          by (apply prefix_iff; now exists post').
        congruence.
      * simpl in H'; injection H' as _ H'.
        assert (String.length pre <= String.length pre')
          by (apply Hmin; now exists post').
        simpl; lia.
Qed.

Lemma prefix_nl (c : ascii) (s : string) :
  prefix Str.nl (String c s) = true <-> c = ascii_of_nat 10.
Proof.
  rewrite prefix_iff; unfold Str.nl; split.
  - intros [r Hr]; simpl in Hr; congruence.
  - intros ->; exists s; reflexivity.
Qed.

Lemma contains_nl_cons (c : ascii) (s : string) :
  Str.contains Str.nl (String c s) = false <->
  c <> ascii_of_nat 10 /\ Str.contains Str.nl s = false.
Proof.
  cbn [Str.contains]; rewrite orb_false_iff.
  destruct (prefix Str.nl (String c s)) eqn:Hp.
  - apply prefix_nl in Hp; split; [intros [H _]; discriminate H |].
    intros [H _]; contradiction.
  - split; intros [H1 H2]; split; auto.
    intros Hc; apply prefix_nl with (s := s) in Hc; congruence.
Qed.

Lemma contains_nl_app (a b : string) :
  Str.contains Str.nl (a ++ b) = false <->
  Str.contains Str.nl a = false /\ Str.contains Str.nl b = false.
Proof.
  induction a as [| c a IH]; cbn [append].
  - split; [intros H; split; [reflexivity | exact H] | tauto].
  - rewrite !contains_nl_cons, IH; tauto.
Qed.

Lemma split_from_nl_free (s : string) :
  forall cur,
    Str.contains Str.nl cur = false ->
    Forall (fun line => Str.contains Str.nl line = false)
      (Str.split_from Str.nl 0 cur s).
Proof.
  induction s as [| c s IH]; intros cur Hcur; cbn [Str.split_from].
  - constructor; [exact Hcur | constructor].
  - destruct (prefix Str.nl (String c s)) eqn:Hp.
    + constructor; [exact Hcur |].
      change (String.length Str.nl - 1) with 0; apply IH; reflexivity.
    + apply IH, contains_nl_app; split; [exact Hcur |].
      apply contains_nl_cons; split; [| reflexivity].
      intros Hc; apply prefix_nl with (s := s) in Hc; congruence.
Qed.

Lemma output_lines_nl_free (out : string) :
  Forall (fun line => Str.contains Str.nl line = false) (output_lines out).
Proof. apply split_from_nl_free; reflexivity. Qed.









End Lines.



(** X1: no identifier the parser returns contains [==] or a line feed:
    each is one piece of one line, cut at the leftmost [==]. *)
Theorem identifiers_hold_no_separator (out : string) :
  Forall (fun name =>
            Str.contains "==" name = false
            /\ Str.contains Str.nl name = false)
    (parse_packages out).
Proof.
  apply Forall_forall; intros name Hn.
  apply parse_packages_In in Hn; destruct Hn as [line [Hin [Hk ->]]].
  pose proof (keeps_separator line Hk) as Hc.
  destruct (split_from_leftmost "==" line "" Hc) as [pre [Hhd [[post Hs] Hmin]]].
  unfold pkg_name_of, Str.split; rewrite Hhd; cbn [append].
  split.
  - destruct (Str.contains "==" pre) eqn:Hp; [exfalso | reflexivity].
    apply contains_iff in Hp; destruct Hp as [p [q Hp]].
    assert (Hle : String.length pre <= String.length p).
    { apply Hmin; exists (q ++ "==" ++ post)%string.
      rewrite Hs, Hp, !append_assoc; reflexivity. }
    rewrite Hp, !length_append in Hle; simpl in Hle; lia.
  - pose proof (output_lines_nl_free out) as Hf.
    rewrite Forall_forall in Hf; specialize (Hf line Hin).
    rewrite Hs in Hf; apply contains_nl_app in Hf; tauto.
Qed.

(** X2: the identifiers are, in listing order and with repetitions kept,
    the names of exactly the lines that contain [==] and whose name,
    lowercased, is none of the protected ones; so an identifier is
    returned exactly when such a line holds it. *)
Theorem parse_selects_in_order (out : string) :
  parse_packages out
  = map pkg_name_of
      (filter (fun line =>
                 Str.contains "==" line
                 && negb (Str.mem (Str.lower (pkg_name_of line)) protected))
         (output_lines out))
  /\ forall name,
       In name (parse_packages out) <->
       exists line,
         In line (output_lines out)
         /\ Str.contains "==" line = true
         /\ name = pkg_name_of line
         /\ ~ In (Str.lower name) protected.
Proof.
  split.
  - rewrite parse_packages_filter; f_equal; apply filter_ext.
    intros line; unfold keeps; now destruct line.
  - intros name; rewrite parse_packages_In; split.
    + intros [line [Hin [Hk ->]]]; exists line.
      repeat split; auto using keeps_separator, keeps_unprotected.
    + intros [line [Hin [Hc [-> Hp]]]]; exists line.
      split; [exact Hin | split; [| reflexivity]].
      unfold keeps; rewrite Hc.
      destruct (Str.mem (Str.lower (pkg_name_of line)) protected) eqn:Hm;
        [apply mem_iff in Hm; contradiction |].
      now destruct line.
Qed.

(** X3: when the listing succeeds with nothing but white space on its
    standard output (nothing at all included), the run reports that there
    is nothing to uninstall, as a success, and launches no uninstall. *)
Theorem blank_listing_is_nothing_to_do (w : World) (r : CompletedProcess) :
  pip_list w = Returned r ->
  returncode r = 0%Z ->
  all_space (stdout r) = true ->
  parse_packages (stdout r) = []
  /\ run w = ([fetching_line; Progress 0 0; Spawn PipListFreeze;
               Finished true "No packages to uninstall"], Ok tt).
Proof.
  intros Hl Hrc Hs.
  assert (Hp : parse_packages (stdout r) = [])
    by (unfold parse_packages, output_lines; now rewrite (strip_space _ Hs)).
  split; [exact Hp | exact (run_nothing_to_do w r Hl Hrc Hp)].
Qed.

Lemma blank_listing_is_nothing_to_do_witness :
  parse_packages (Str.nl ++ "  " ++ Str.nl) = []
  /\ run (mkWorld (exit_with 0 (Str.nl ++ "  " ++ Str.nl) "")
            (fun _ _ => exit_with 0 "" ""))
     = ([fetching_line; Progress 0 0; Spawn PipListFreeze;
         Finished true "No packages to uninstall"], Ok tt).
Proof.
  apply (blank_listing_is_nothing_to_do
           (mkWorld (exit_with 0 (Str.nl ++ "  " ++ Str.nl) "")
              (fun _ _ => exit_with 0 "" ""))
           (mkCompleted 0 (Str.nl ++ "  " ++ Str.nl) ""));
    reflexivity.
Defined.


